(** * Transaction store and dashboard derivation pipeline

    A shallow embedding of the client-side state layer of the personal
    finance application: the zustand store [useTransactionStore]
    (getAllTransactions / addTransaction / updateTransaction /
    deleteTransaction) and the two [useMemo] computations of
    [DashboardPage] (summary totals, filtered and sorted list).

    Conventions of the embedding.
    - A JavaScript array of records is a [list Transaction]; where
      aliasing matters (the in-place [Array.prototype.sort]) arrays live
      in a heap of references, see [Module Mem].
    - [amount] is a JavaScript number: an IEEE 754 binary64 value, with
      the rounding arithmetic of the Standard Library's [SpecFloat].
    - A time value ([Date.prototype.getTime]) is [Some ms] or [None] for
      NaN (an Invalid Date).
    - The host function that parses a date string is a parameter
      ([getTime]) of everything that sorts; [Date_getTime] is the
      date-only ISO instance ("YYYY-MM-DD") used to run the definitions.
    - [Math.random().toString(36)] is an input of [addTransaction]: the
      base-36 rendering of the draw. *)

From Stdlib Require Import ZArith SpecFloat String Ascii Sorted Permutation Lia.
From stdpp Require Import base list gmap strings sorting.

Local Open Scope string_scope.
Local Open Scope Z_scope.

(** ** Numbers *)

(** A JavaScript number is a binary64 value: a signed zero, a signed
    infinity, NaN, or a signed mantissa with an exponent. *)
Definition Number : Type := spec_float.

(** [x + y], [x - y] and [x / y], each rounded to the nearest number, ties
    to even. *)
Definition Number_add (x y : Number) : Number := SFadd 53 1024 x y.
Definition Number_sub (x y : Number) : Number := SFsub 53 1024 x y.
Definition Number_div (x y : Number) : Number := SFdiv 53 1024 x y.

(** The literal [0]. *)
Definition Number_zero : Number := S754_zero false.

(** The number an integer literal denotes. *)
Definition Number_of_Z (n : Z) : Number := binary_normalize 53 1024 n 0 false.

(** The number the decimal literal of value [n / d] denotes, for integers
    below 2^53: the nearest number to the quotient. *)
Definition Number_of_ratio (n : Z) (d : positive) : Number :=
  Number_div (Number_of_Z n) (Number_of_Z (Zpos d)).

(** [x >= 0]: false of NaN, true of both zeros. *)
Definition Number_ge0 (x : Number) : bool := SFleb Number_zero x.

(** A number that is not NaN and, unless it is a zero, has the sign [s]. *)
Definition signed (s : bool) (x : Number) : Prop :=
  match x with
  | S754_zero _ => True
  | S754_infinity s' => s' = s
  | S754_nan => False
  | S754_finite s' _ _ => s' = s
  end.

(** ** Data model *)

(** The union type ['income' | 'expense'] of a record's [type] field. *)
Inductive TxType : Type := income | expense.

(** The view-local filter, ["all" | "income" | "expense"]. *)
Inductive FilterType : Type := filter_all | filter_income | filter_expense.

(** The view-local sort order, ["asc" | "desc"]. *)
Inductive SortOrder : Type := asc | desc.

Global Instance TxType_eq_dec : EqDecision TxType.
Proof. solve_decision. Defined.

Global Instance FilterType_eq_dec : EqDecision FilterType.
Proof. solve_decision. Defined.

Global Instance SortOrder_eq_dec : EqDecision SortOrder.
Proof. solve_decision. Defined.

(** The string each enumeration member is at run time. *)
Definition TxType_value (ty : TxType) : string :=
  match ty with income => "income" | expense => "expense" end.

Definition FilterType_value (f : FilterType) : string :=
  match f with
  | filter_all => "all"
  | filter_income => "income"
  | filter_expense => "expense"
  end.

(** [Transaction]: the record held by the store. *)
Record Transaction : Type := mkTransaction {
  id : string;
  title : string;
  amount : Number;
  type : TxType;
  category : string;
  date : string
}.

(** [Omit<Transaction, 'id'>]: the payload of [addTransaction]. *)
Record Draft : Type := mkDraft {
  draft_title : string;
  draft_amount : Number;
  draft_type : TxType;
  draft_category : string;
  draft_date : string
}.

(** [{ ...newTx, id: i }] *)
Definition with_id (newTx : Draft) (i : string) : Transaction :=
  {| id := i;
     title := draft_title newTx;
     amount := draft_amount newTx;
     type := draft_type newTx;
     category := draft_category newTx;
     date := draft_date newTx |}.

(** The ids of a collection, in collection order. *)
Definition ids (txs : list Transaction) : list string := map id txs.

(** ** Host functions: strings, dates, sorting *)

(** [String.prototype.substring(start, end)] for non-negative integer
    arguments: both are clamped to the length, swapped when out of order, and
    the code units in between are returned. *)
Definition JS_substring (start finish : nat) (s : string) : string :=
  let len := String.length s in
  let a := Nat.min start len in
  let b := Nat.min finish len in
  let from := Nat.min a b in
  let to := Nat.max a b in
  String.substring from (to - from) s.

(** A time value: milliseconds since the epoch, [None] for NaN. *)
Definition TimeValue : Type := option Z.

(** Subtraction of two time values as JavaScript numbers: NaN when either
    operand is NaN.  (Time values are integers of magnitude at most
    8.64e15, so the sign of the difference is exact.) *)
Definition JS_sub (x y : TimeValue) : option Z :=
  match x, y with
  | Some a, Some b => Some (a - b)
  | _, _ => None
  end.

(** [x >= y] and [x <= y] on numbers: false when either operand is NaN. *)
Definition JS_ge (x y : TimeValue) : bool :=
  match x, y with
  | Some a, Some b => b <=? a
  | _, _ => false
  end.

Definition JS_le (x y : TimeValue) : bool := JS_ge y x.

(** *** The date-only ISO form, following the ECMAScript day arithmetic *)

Definition digit_value (c : ascii) : option Z :=
  let n := Z.of_nat (nat_of_ascii c) in
  if (48 <=? n) && (n <=? 57) then Some (n - 48) else None.

Definition is_leap_year (y : Z) : bool :=
  (y mod 4 =? 0) && (negb (y mod 100 =? 0) || (y mod 400 =? 0)).

Definition DaysInMonth (y m : Z) : Z :=
  if m =? 2 then (if is_leap_year y then 29 else 28)
  else if (m =? 4) || (m =? 6) || (m =? 9) || (m =? 11) then 30
  else 31.

(** Days from the epoch to the first of January of year [y]. *)
Definition DayFromYear (y : Z) : Z :=
  365 * (y - 1970) + (y - 1969) / 4 - (y - 1901) / 100 + (y - 1601) / 400.

(** Days from the first of January to the first of month [m] (1-based). *)
Fixpoint days_before_month (y : Z) (m : nat) : Z :=
  match m with
  | O => 0
  | S O => 0
  | S m' => days_before_month y m' + DaysInMonth y (Z.of_nat m')
  end.

Definition MakeDay (y m d : Z) : Z :=
  DayFromYear y + days_before_month y (Z.to_nat m) + (d - 1).

Definition msPerDay : Z := 86400000.

(** [new Date(s).getTime()] on the date-only form "YYYY-MM-DD": midnight
    UTC of that day, and NaN for an illegal month or day.  This instance
    answers NaN on every other string too; a host may read further forms,
    which is why the results below are stated for an arbitrary parser. *)
Definition Date_getTime (s : string) : TimeValue :=
  match list_ascii_of_string s with
  | [y1; y2; y3; y4; h1; m1; m2; h2; d1; d2] =>
      match digit_value y1, digit_value y2, digit_value y3, digit_value y4,
            digit_value m1, digit_value m2, digit_value d1, digit_value d2 with
      | Some a, Some b, Some c, Some d, Some e, Some f, Some g, Some h =>
          let y := 1000 * a + 100 * b + 10 * c + d in
          let m := 10 * e + f in
          let dd := 10 * g + h in
          if Ascii.eqb h1 "-" && Ascii.eqb h2 "-"
             && (1 <=? m) && (m <=? 12) && (1 <=? dd) && (dd <=? DaysInMonth y m)
          then Some (MakeDay y m dd * msPerDay)
          else None
      | _, _, _, _, _, _, _, _ => None
      end
  | _ => None
  end.

(** *** [Array.prototype.sort] *)

Section ArraySort.
Context {T : Type}.
Variable comparefn : T -> T -> option Z.

(** The abstract operation SortCompare: a NaN result of the comparator
    counts as +0. *)
Definition SortCompare (x y : T) : Z :=
  match comparefn x y with
  | Some v => v
  | None => 0
  end.

(** Insert [x], which precedes every element of [l] in the input, into the
    already sorted [l]: it moves right only past elements that must come
    strictly before it, so ties keep the input order. *)
Fixpoint sort_insert (x : T) (l : list T) : list T :=
  match l with
  | [] => [x]
  | y :: l' =>
      if SortCompare x y <=? 0 then x :: y :: l'
      else y :: sort_insert x l'
  end.

(** The sorted contents of an array.  The language requires [sort] to be
    stable and, for a consistent comparator, to order the elements by it;
    that fixes the result, which this insertion sort computes.  For an
    inconsistent comparator the language only promises some permutation. *)
Definition Array_sort (l : list T) : list T := foldr sort_insert [] l.

End ArraySort.

(** ** The store: [useTransactionStore] *)

Record TransactionState : Type := mkState {
  transactions : list Transaction;
  isLoading : bool
}.

(** The initial state of the store. *)
Definition initialState : TransactionState :=
  {| transactions := []; isLoading := false |}.

(** The argument of [set]: the fields to overwrite, the others absent. *)
Record PartialState : Type := mkPartial {
  new_transactions : option (list Transaction);
  new_isLoading : option bool
}.

(** [set(fn)] of the store library: [fn] is applied to the current state
    and the fields it returns are merged over it.  [set(obj)] is [set] of the
    constant function. *)
Definition set (fn : TransactionState -> PartialState)
    (s : TransactionState) : TransactionState :=
  {| transactions := default (transactions s) (new_transactions (fn s));
     isLoading := default (isLoading s) (new_isLoading (fn s)) |}.

(** [{ isLoading: true }] *)
Definition loading : PartialState :=
  {| new_transactions := None; new_isLoading := Some true |}.

Definition mockData : list Transaction :=
  [ {| id := "1"; title := "Salario"; amount := Number_of_Z 3000;
       type := income; category := "Trabajo"; date := "2023-10-01" |};
    {| id := "2"; title := "Alquiler"; amount := Number_of_Z 800;
       type := expense; category := "Vivienda"; date := "2023-10-05" |} ].

(** Every action raises the flag with a first [set], waits for its timer,
    and publishes the new array together with the lowered flag in a second
    [set].  An action below is the effect of one call run to completion,
    with no other call in between. *)
Definition getAllTransactions (s : TransactionState) : TransactionState :=
  let s1 := set (fun _ => loading) s in
  set (fun _ => {| new_transactions := Some mockData;
                   new_isLoading := Some false |}) s1.

(** The id made from [rnd], the value of [Math.random().toString(36)]. *)
Definition generated_id (rnd : string) : string := JS_substring 2 9 rnd.

Definition addTransaction (newTx : Draft) (rnd : string)
    (s : TransactionState) : TransactionState :=
  let s1 := set (fun _ => loading) s in
  let transaction := with_id newTx (generated_id rnd) in
  set (fun state => {| new_transactions := Some (transaction :: transactions state);
                       new_isLoading := Some false |}) s1.

Definition updateTransaction (updatedTx : Transaction)
    (s : TransactionState) : TransactionState :=
  let s1 := set (fun _ => loading) s in
  set (fun state =>
         {| new_transactions :=
              Some (map (fun tx => if String.eqb (id tx) (id updatedTx)
                                   then updatedTx else tx)
                        (transactions state));
            new_isLoading := Some false |}) s1.

Definition deleteTransaction (i : string)
    (s : TransactionState) : TransactionState :=
  let s1 := set (fun _ => loading) s in
  set (fun state =>
         {| new_transactions :=
              Some (List.filter (fun tx => negb (String.eqb (id tx) i))
                                (transactions state));
            new_isLoading := Some false |}) s1.

(** Sequences of mutating calls, each awaited before the next. *)
Inductive Op : Type :=
  | Create (newTx : Draft) (rnd : string)
  | Update (updatedTx : Transaction)
  | Delete (i : string).

Definition step (s : TransactionState) (o : Op) : TransactionState :=
  match o with
  | Create newTx rnd => addTransaction newTx rnd s
  | Update updatedTx => updateTransaction updatedTx s
  | Delete i => deleteTransaction i s
  end.

Definition run (ops : list Op) (s : TransactionState) : TransactionState :=
  fold_left step ops s.

(** Every create of the sequence, run from [s], draws an id that is not in
    the collection at that moment. *)
Fixpoint creates_fresh (ops : list Op) (s : TransactionState) : Prop :=
  match ops with
  | [] => True
  | o :: ops' =>
      match o with
      | Create _ rnd => generated_id rnd ∉ ids (transactions s)
      | _ => True
      end /\ creates_fresh ops' (step s o)
  end.

(** ** The derivation pipeline: the two [useMemo] bodies of [DashboardPage] *)

(** [t.type === "income"], a comparison of strings. *)
Definition type_is (name : string) (t : Transaction) : bool :=
  String.eqb (TxType_value (type t)) name.

(** [acc + t.amount] *)
Definition add_amount (acc : Number) (t : Transaction) : Number :=
  Number_add acc (amount t).

Record Summary : Type := mkSummary {
  totalIncome : Number;
  totalExpenses : Number;
  netBalance : Number
}.

Definition summary (transactions : list Transaction) : Summary :=
  let income :=
    fold_left add_amount (List.filter (type_is "income") transactions) Number_zero in
  let expenses :=
    fold_left add_amount (List.filter (type_is "expense") transactions)
      Number_zero in
  {| totalIncome := income;
     totalExpenses := expenses;
     netBalance := Number_sub income expenses |}.

(** [filterType === "all" ? true : t.type === filterType] *)
Definition keeps (filterType : FilterType) (t : Transaction) : bool :=
  if String.eqb (FilterType_value filterType) "all" then true
  else String.eqb (TxType_value (type t)) (FilterType_value filterType).

Section Pipeline.
(** [fun s => new Date(s).getTime()], the host's date parser. *)
Variable getTime : string -> TimeValue.

Definition compareByDate (sortOrder : SortOrder) (a b : Transaction) : option Z :=
  let dateA := getTime (date a) in
  let dateB := getTime (date b) in
  if decide (sortOrder = desc) then JS_sub dateB dateA else JS_sub dateA dateB.

Definition processedTransactions (transactions : list Transaction)
    (filterType : FilterType) (sortOrder : SortOrder) : list Transaction :=
  Array_sort (compareByDate sortOrder) (List.filter (keeps filterType) transactions).

(** What one render derives from the store's list and the two view-local
    parameters. *)
Record Derived : Type := mkDerived {
  derived_summary : Summary;
  derived_list : list Transaction
}.

Definition DashboardPage (transactions : list Transaction)
    (filterType : FilterType) (sortOrder : SortOrder) : Derived :=
  {| derived_summary := summary transactions;
     derived_list := processedTransactions transactions filterType sortOrder |}.

End Pipeline.

(** The spec's wording of a total: the sum of [amount] over the records of
    the collection whose [type] is [ty].  Sums of numbers are rounded at
    every addition, so the order counts: the records are taken in the order
    of the collection, starting from [acc]. *)
Fixpoint sum_from (acc : Number) (ty : TxType) (txs : list Transaction) : Number :=
  match txs with
  | [] => acc
  | t :: txs' =>
      sum_from (if decide (type t = ty) then Number_add acc (amount t) else acc)
               ty txs'
  end.

Definition sum_of_type (ty : TxType) (txs : list Transaction) : Number :=
  sum_from Number_zero ty txs.

(** ** Arrays as heap objects

    [filter] allocates a new array, [sort] reorders the array it is called
    on and returns that same array, [reduce] only reads.  The records
    themselves are never assigned to by the pipeline, so they are values
    here. *)
Module Mem.

Definition loc : Type := nat.

Abbreviation Heap := (gmap nat (list Transaction)).

(** Computations over the heap; [None] is a dangling reference. *)
Definition M (A : Type) : Type := Heap -> option (A * Heap).

Definition ret {A : Type} (a : A) : M A := fun h => Some (a, h).

Definition bind {A B : Type} (k : A -> M B) (m : M A) : M B :=
  fun h => match m h with
           | Some (a, h') => k a h'
           | None => None
           end.

(** The usual [x ← m; k] notation. *)
Global Instance M_ret : MRet M := @ret.
Global Instance M_bind : MBind M := @bind.

(** [arr.filter(p)]: a fresh array holding the kept elements. *)
Definition filter (r : loc) (p : Transaction -> bool) : M loc :=
  fun h => match h !! r with
           | Some l => let r' := fresh (dom h) in
                       Some (r', <[r' := List.filter p l]> h)
           | None => None
           end.

(** [arr.sort(cmp)]: the array at [r] is overwritten with its sorted
    contents; the result is [r] itself. *)
Definition sort (r : loc) (cmp : Transaction -> Transaction -> option Z) : M loc :=
  fun h => match h !! r with
           | Some l => Some (r, <[r := Array_sort cmp l]> h)
           | None => None
           end.

(** [arr.reduce(f, init)] *)
Definition reduce {A : Type} (r : loc) (f : A -> Transaction -> A) (init : A) : M A :=
  fun h => match h !! r with
           | Some l => Some (fold_left f l init, h)
           | None => None
           end.

End Mem.

(** The first [useMemo] body, on the array referenced by [transactions]. *)
Definition summary_mem (transactions : Mem.loc) : Mem.M Summary :=
  r1 ← Mem.filter transactions (type_is "income");
  income ← Mem.reduce r1 add_amount Number_zero;
  r2 ← Mem.filter transactions (type_is "expense");
  expenses ← Mem.reduce r2 add_amount Number_zero;
  mret {| totalIncome := income;
         totalExpenses := expenses;
         netBalance := Number_sub income expenses |}.

(** The second [useMemo] body; its value is a reference to the sorted
    array. *)
Definition processedTransactions_mem (getTime : string -> TimeValue)
    (transactions : Mem.loc) (filterType : FilterType) (sortOrder : SortOrder)
    : Mem.M Mem.loc :=
  r1 ← Mem.filter transactions (keeps filterType);
  Mem.sort r1 (compareByDate getTime sortOrder).

(** One render: both derivations, in source order. *)
Definition DashboardPage_mem (getTime : string -> TimeValue)
    (transactions : Mem.loc) (filterType : FilterType) (sortOrder : SortOrder)
    : Mem.M (Summary * Mem.loc) :=
  s ← summary_mem transactions;
  r ← processedTransactions_mem getTime transactions filterType sortOrder;
  mret (s, r).

(** ** Properties of collections and display lists *)

(** The time value of a record's date. *)
Definition time_of (getTime : string -> TimeValue) (t : Transaction) : TimeValue :=
  getTime (date t).

(** Every adjacent pair [(a, b)] of [out] has [date a >= date b] under
    [desc], and [date a <= date b] under [asc], as comparisons of time
    values. *)
Definition date_ordered (getTime : string -> TimeValue) (sortOrder : SortOrder)
    (out : list Transaction) : Prop :=
  forall (i : nat) (a b : Transaction),
    out !! i = Some a -> out !! S i = Some b ->
    (if decide (sortOrder = desc)
     then JS_ge (time_of getTime a) (time_of getTime b)
     else JS_le (time_of getTime a) (time_of getTime b)) = true.

(** The records of [l] whose date is the instant [v], in the order of [l]. *)
Definition dated (getTime : string -> TimeValue) (v : TimeValue)
    (l : list Transaction) : list Transaction :=
  filter (fun t => time_of getTime t = v) l.

(** The number of records of a collection that carry the id [i]. *)
Definition count_id (i : string) (txs : list Transaction) : nat :=
  length (filter (fun tx => id tx = i) txs).

(** The integer key the comparator of the pipeline orders by, on records
    whose date is a valid instant: the instant under [asc], its opposite
    under [desc]. *)
Definition sort_key (getTime : string -> TimeValue) (sortOrder : SortOrder)
    (t : Transaction) : Z :=
  let v := default 0 (time_of getTime t) in
  if decide (sortOrder = desc) then - v else v.

(** A record whose date field is the empty string, an Invalid Date; the
    form does not let such a record through. *)
Definition undated : Transaction :=
  {| id := "3"; title := "Varios"; amount := Number_of_Z 10; type := expense;
     category := "Otros"; date := "" |}.

(** The draft of the creation scenario. *)
Definition coffee : Draft :=
  {| draft_title := "Coffee"; draft_amount := Number_of_ratio 45 10;
     draft_type := expense; draft_category := "Food";
     draft_date := "2024-01-01" |}.

(** The base-36 rendering of the draw 0.5, and the id made from it. *)
Definition half36 : string := "0.i".

(** A collection holding one record created from the draw 0.5. *)
Definition one_coffee : TransactionState :=
  addTransaction coffee half36 initialState.

(** Two creates whose draws are both 0.5, and the collection they leave. *)
Definition two_creates : list Op := [Create coffee half36; Create coffee half36].

Definition two_coffees : TransactionState := run two_creates initialState.

(** A create, an update of the created record and a delete of an id that
    is not there. *)
Definition create_update_delete : list Op :=
  [Create coffee half36; Update (with_id coffee "i"); Delete "1"].

(** ** Calls that overlap

    A call of a store action runs in two pieces with its timer in between:
    the first [set], at the moment of the call, and the rest of the body,
    when the timer fires.  Each piece runs without interruption, so a run of
    overlapping calls is a sequence of such pieces. *)
Module Overlap.

(** The four actions of the store. *)
Inductive Call : Type :=
  | Load
  | Mutate (o : Op).

(** The piece before the timer: [set({ isLoading: true })]. *)
Definition begin (s : TransactionState) : TransactionState :=
  set (fun _ => loading) s.

(** The piece after the timer, on the state the store is in by then. *)
Definition finish (c : Call) (s : TransactionState) : TransactionState :=
  match c with
  | Load =>
      set (fun _ => {| new_transactions := Some mockData;
                       new_isLoading := Some false |}) s
  | Mutate (Create newTx rnd) =>
      let transaction := with_id newTx (generated_id rnd) in
      set (fun state => {| new_transactions := Some (transaction :: transactions state);
                           new_isLoading := Some false |}) s
  | Mutate (Update updatedTx) =>
      set (fun state =>
             {| new_transactions :=
                  Some (map (fun tx => if String.eqb (id tx) (id updatedTx)
                                       then updatedTx else tx)
                            (transactions state));
                new_isLoading := Some false |}) s
  | Mutate (Delete i) =>
      set (fun state =>
             {| new_transactions :=
                  Some (List.filter (fun tx => negb (String.eqb (id tx) i))
                                    (transactions state));
                new_isLoading := Some false |}) s
  end.

(** A whole call with nothing in between. *)
Definition call (s : TransactionState) (c : Call) : TransactionState :=
  match c with
  | Load => getAllTransactions s
  | Mutate o => step s o
  end.

(** What happens, in time order: some call starts, or the timer of the call
    [c] fires. *)
Inductive Event : Type :=
  | Started
  | Finished (c : Call).

Definition occur (s : TransactionState) (e : Event) : TransactionState :=
  match e with
  | Started => begin s
  | Finished c => finish c s
  end.

Definition exec (events : list Event) (s : TransactionState) : TransactionState :=
  fold_left occur events s.

(** The calls of a run in the order their timers fired. *)
Fixpoint finished (events : list Event) : list Call :=
  match events with
  | [] => []
  | Started :: events' => finished events'
  | Finished c :: events' => c :: finished events'
  end.

(** The calls that have started and not finished, given [n] at the start. *)
Fixpoint pending (n : nat) (events : list Event) : nat :=
  match events with
  | [] => n
  | Started :: events' => pending (S n) events'
  | Finished _ :: events' => pending (Nat.pred n) events'
  end.

End Overlap.

(** ** The form: [TransactionForm] *)
Module Form.

(** [!!transaction] *)
Definition isEditMode (transaction : option Transaction) : bool :=
  match transaction with
  | Some _ => true
  | None => false
  end.

(** The [defaultValues] of the form in edit mode: the five fields of the
    record under edit. *)
Definition defaultValues (transaction : Transaction) : Draft :=
  {| draft_title := title transaction;
     draft_amount := amount transaction;
     draft_type := type transaction;
     draft_category := category transaction;
     draft_date := date transaction |}.

(** [onSubmit(data)] for validated [data]: one store action, then
    [onClose()].  The result is the store and the number of calls of
    [onClose].  The store actions have no failing path, so the [catch] is
    never entered. *)
Definition onSubmit (transaction : option Transaction) (data : Draft)
    (rnd : string) (s : TransactionState) : TransactionState * nat :=
  let s' :=
    match isEditMode transaction, transaction with
    | true, Some t => updateTransaction (with_id data (id t)) s
    | _, _ => addTransaction data rnd s
    end in
  (s', 1%nat).

End Form.

(** ** The view-local state and handlers of [DashboardPage] *)
Module View.

Record ViewState : Type := mkView {
  isModalOpen : bool;
  editingTransaction : option Transaction;
  filterType : FilterType;
  sortOrder : SortOrder;
  isDeleteModalOpen : bool;
  transactionToDelete : option Transaction
}.

(** The initial values of the six [useState] cells. *)
Definition initialView : ViewState :=
  {| isModalOpen := false; editingTransaction := None;
     filterType := filter_all; sortOrder := desc;
     isDeleteModalOpen := false; transactionToDelete := None |}.

Definition handleCreate (v : ViewState) : ViewState :=
  {| isModalOpen := true; editingTransaction := None;
     filterType := filterType v; sortOrder := sortOrder v;
     isDeleteModalOpen := isDeleteModalOpen v;
     transactionToDelete := transactionToDelete v |}.

Definition handleEdit (transaction : Transaction) (v : ViewState) : ViewState :=
  {| isModalOpen := true; editingTransaction := Some transaction;
     filterType := filterType v; sortOrder := sortOrder v;
     isDeleteModalOpen := isDeleteModalOpen v;
     transactionToDelete := transactionToDelete v |}.

Definition handleDeleteClick (transaction : Transaction) (v : ViewState) : ViewState :=
  {| isModalOpen := isModalOpen v; editingTransaction := editingTransaction v;
     filterType := filterType v; sortOrder := sortOrder v;
     isDeleteModalOpen := true; transactionToDelete := Some transaction |}.

(** [setIsModalOpen(false)], the [onClose] given to the form and its modal. *)
Definition closeModal (v : ViewState) : ViewState :=
  {| isModalOpen := false; editingTransaction := editingTransaction v;
     filterType := filterType v; sortOrder := sortOrder v;
     isDeleteModalOpen := isDeleteModalOpen v;
     transactionToDelete := transactionToDelete v |}.

(** [setIsDeleteModalOpen(false)] *)
Definition closeDeleteModal (v : ViewState) : ViewState :=
  {| isModalOpen := isModalOpen v; editingTransaction := editingTransaction v;
     filterType := filterType v; sortOrder := sortOrder v;
     isDeleteModalOpen := false; transactionToDelete := transactionToDelete v |}.

(** The sort button: [setSortOrder(sortOrder === "asc" ? "desc" : "asc")]. *)
Definition toggleSortOrder (v : ViewState) : ViewState :=
  {| isModalOpen := isModalOpen v; editingTransaction := editingTransaction v;
     filterType := filterType v;
     sortOrder := if decide (sortOrder v = asc) then desc else asc;
     isDeleteModalOpen := isDeleteModalOpen v;
     transactionToDelete := transactionToDelete v |}.

(** The "Eliminar" button of the confirmation modal. *)
Definition confirmDelete (v : ViewState) (s : TransactionState)
    : ViewState * TransactionState :=
  match transactionToDelete v with
  | Some t => (closeDeleteModal v, deleteTransaction (id t) s)
  | None => (v, s)
  end.

(** A submit of the form as the page mounts it: [transaction] is
    [editingTransaction] and [onClose] is [closeModal]. *)
Definition submitForm (data : Draft) (rnd : string) (v : ViewState)
    (s : TransactionState) : ViewState * TransactionState :=
  let '(s', closes) := Form.onSubmit (editingTransaction v) data rnd s in
  (Nat.iter closes closeModal v, s').

(** The rows of the table. *)
Definition rows (getTime : string -> TimeValue) (v : ViewState)
    (s : TransactionState) : list Transaction :=
  processedTransactions getTime (transactions s) (filterType v) (sortOrder v).

(** The condition under which the page shows the full-page spinner in place
    of the dashboard. *)
Definition showsSpinner (authLoading : bool) (s : TransactionState) : bool :=
  authLoading || (isLoading s && (length (transactions s) =? 0)%nat).

(** What the effect of the page does when it runs: [redirect] does not
    return, so the fetch is started only when there is no redirect.
    [Fetched s] carries the store as the fetch leaves it. *)
Inductive EffectResult : Type :=
  | Redirected (path : string)
  | Fetched (s : TransactionState).

Definition effect (authLoading isAuthenticated : bool) (s : TransactionState)
    : EffectResult :=
  if negb authLoading && negb isAuthenticated then Redirected "/login"
  else Fetched (getAllTransactions s).

End View.

(** ** The session: [AuthProvider] and [LoginPage] *)
Module Auth.

(** The object [{ id, email, name }]. *)
Record User : Type := mkUser {
  user_id : string;
  email : string;
  name : string
}.

(** What the [user] field can hold: [null], an object of the shape above,
    or, since what [JSON.parse] returns is stored unchecked, anything
    else. *)
Inductive UserValue : Type :=
  | user_null
  | user_object (u : User)
  | user_other.

Record AuthState : Type := mkAuth {
  user : UserValue;
  isAuthenticated : bool;
  isLoading : bool
}.

(** The state the provider mounts with. *)
Definition initialAuth : AuthState :=
  {| user := user_null; isAuthenticated := false; isLoading := true |}.

(** [setState(prev => ({ ...prev, isLoading: b }))] *)
Definition with_isLoading (b : bool) (prev : AuthState) : AuthState :=
  {| user := user prev; isAuthenticated := isAuthenticated prev; isLoading := b |}.

(** [localStorage]: its keys and their texts. *)
Abbreviation Storage := (gmap string string).

Definition auth_user : string := "auth_user".

(** Whether a call returned or threw. *)
Inductive Outcome : Type := returned | threw.

Section Host.
(** [JSON.parse]; [None] when it throws. *)
Variable JSON_parse : string -> option UserValue.
(** [JSON.stringify] on an object of the shape of [User]. *)
Variable JSON_stringify : User -> string.
(** Whether [localStorage.setItem] takes the write; it throws when the
    quota is exceeded. *)
Variable setItem_accepts : Storage -> string -> string -> bool.

(** The effect run at mount: it restores a saved session.  [getItem] gives
    [null] for a missing key, and [null] and the empty text are falsy. *)
Definition hydrate (storage : Storage) (s : AuthState) : AuthState :=
  match storage !! auth_user with
  | Some savedUser =>
      if String.eqb savedUser "" then with_isLoading false s
      else match JSON_parse savedUser with
           | Some v => {| user := v; isAuthenticated := true; isLoading := false |}
           | None => with_isLoading false s
           end
  | None => with_isLoading false s
  end.

(** [login(email)] run to completion. *)
Definition login (email : string) (storage : Storage) (s : AuthState)
    : Outcome * Storage * AuthState :=
  let s1 := with_isLoading true s in
  let mockUser := {| user_id := "1"; email := email; name := "Usuario Demo" |} in
  let text := JSON_stringify mockUser in
  if setItem_accepts storage auth_user text then
    (returned, <[auth_user := text]> storage,
     {| user := user_object mockUser; isAuthenticated := true; isLoading := false |})
  else
    (threw, storage, with_isLoading false s1).

Definition logout (storage : Storage) (s : AuthState) : Storage * AuthState :=
  (delete auth_user storage,
   {| user := user_null; isAuthenticated := false; isLoading := false |}).

(** [onSubmit] of the login page: the router is pushed to the dashboard
    only when [login] returned; a throw is logged and swallowed.  [history]
    is the list of pushed paths. *)
Definition LoginPage_onSubmit (data_email : string) (storage : Storage)
    (s : AuthState) (history : list string) : Storage * AuthState * list string :=
  match login data_email storage s with
  | (returned, storage', s') => (storage', s', (history ++ ["/dashboard"])%list)
  | (threw, storage', s') => (storage', s', history)
  end.

(** The operations a mounted provider goes through. *)
Inductive AuthOp : Type :=
  | Hydrate
  | Login (email : string)
  | Logout.

Definition auth_step (w : Storage * AuthState) (o : AuthOp) : Storage * AuthState :=
  match o with
  | Hydrate => (w.1, hydrate w.1 w.2)
  | Login email => let '(_, storage', s') := login email w.1 w.2 in (storage', s')
  | Logout => logout w.1 w.2
  end.

Definition auth_run (ops : list AuthOp) (w : Storage * AuthState) : Storage * AuthState :=
  fold_left auth_step ops w.

End Host.

(** *** An instance of the host functions on the texts the provider writes *)

Definition dquote : ascii := "034"%char.
Definition backslash : ascii := "092"%char.

Definition hex_digit (n : nat) : ascii :=
  ascii_of_nat (if (n <? 10)%nat then 48 + n else 87 + n)%nat.

(** The escape of one code unit inside a JSON string. *)
Definition quote_char (c : ascii) : string :=
  let n := nat_of_ascii c in
  if Ascii.eqb c dquote then String backslash (String dquote "")
  else if Ascii.eqb c backslash then String backslash (String backslash "")
  else if (n =? 8)%nat then String backslash "b"
  else if (n =? 9)%nat then String backslash "t"
  else if (n =? 10)%nat then String backslash "n"
  else if (n =? 12)%nat then String backslash "f"
  else if (n =? 13)%nat then String backslash "r"
  else if (n <? 32)%nat then
    String backslash
      (String "u" (String "0" (String "0"
        (String (hex_digit (n / 16)) (String (hex_digit (n mod 16)) "")))))
  else String c "".

Fixpoint quote_chars (s : string) : string :=
  match s with
  | EmptyString => ""
  | String c s' => quote_char c +:+ quote_chars s'
  end.

(** A JSON string literal. *)
Definition JSON_quote (s : string) : string :=
  String dquote (quote_chars s +:+ String dquote "").

(** [JSON.stringify] of a user object: its three string members in the
    order the object literal lists them, with no white space. *)
Definition JSON_stringify_user (u : User) : string :=
  "{" +:+ JSON_quote "id" +:+ ":" +:+ JSON_quote (user_id u)
  +:+ "," +:+ JSON_quote "email" +:+ ":" +:+ JSON_quote (email u)
  +:+ "," +:+ JSON_quote "name" +:+ ":" +:+ JSON_quote (name u) +:+ "}".

Definition hex_value (c : ascii) : option nat :=
  let n := nat_of_ascii c in
  if (48 <=? n)%nat && (n <=? 57)%nat then Some (n - 48)%nat
  else if (97 <=? n)%nat && (n <=? 102)%nat then Some (n - 87)%nat
  else if (65 <=? n)%nat && (n <=? 70)%nat then Some (n - 55)%nat
  else None.

(** Reads the rest of a string literal, after its opening quote: the text
    it denotes and what follows the closing quote.  Escapes of code units
    above 255 are not read. *)
Fixpoint read_chars (s : string) : option (string * string) :=
  match s with
  | EmptyString => None
  | String c s' =>
      if Ascii.eqb c dquote then Some ("", s')
      else if Ascii.eqb c backslash then
        match s' with
        | EmptyString => None
        | String e s'' =>
            let simple (d : ascii) :=
              match read_chars s'' with
              | Some (t, rest) => Some (String d t, rest)
              | None => None
              end in
            if Ascii.eqb e dquote then simple dquote
            else if Ascii.eqb e backslash then simple backslash
            else if Ascii.eqb e "/" then simple "/"%char
            else if Ascii.eqb e "b" then simple (ascii_of_nat 8)
            else if Ascii.eqb e "t" then simple (ascii_of_nat 9)
            else if Ascii.eqb e "n" then simple (ascii_of_nat 10)
            else if Ascii.eqb e "f" then simple (ascii_of_nat 12)
            else if Ascii.eqb e "r" then simple (ascii_of_nat 13)
            else if Ascii.eqb e "u" then
              match s'' with
              | String h1 (String h2 (String h3 (String h4 s4))) =>
                  match hex_value h1, hex_value h2, hex_value h3, hex_value h4 with
                  | Some 0%nat, Some 0%nat, Some a, Some b =>
                      match read_chars s4 with
                      | Some (t, rest) => Some (String (ascii_of_nat (16 * a + b)) t, rest)
                      | None => None
                      end
                  | _, _, _, _ => None
                  end
              | _ => None
              end
            else None
        end
      else if (nat_of_ascii c <? 32)%nat then None
      else match read_chars s' with
           | Some (t, rest) => Some (String c t, rest)
           | None => None
           end
  end.

(** Reads the literal [lit] off the front of [s]. *)
Fixpoint expect (lit s : string) : option string :=
  match lit, s with
  | EmptyString, _ => Some s
  | String a lit', String b s' => if Ascii.eqb a b then expect lit' s' else None
  | String _ _, EmptyString => None
  end.

(** Reads one member [key : string-literal] and gives its value. *)
Definition read_member (key s : string) : option (string * string) :=
  match expect (JSON_quote key +:+ ":") s with
  | Some (String c s') => if Ascii.eqb c dquote then read_chars s' else None
  | _ => None
  end.

(** [JSON.parse] on [null] and on the texts [JSON_stringify_user] writes.
    This instance answers every other text with a throw; the host reads all
    of JSON, which is why the results below are stated for an arbitrary
    parser. *)
Definition JSON_parse_user (s : string) : option UserValue :=
  if String.eqb s "null" then Some user_null
  else
    match expect "{" s with
    | Some s1 =>
        match read_member "id" s1 with
        | Some (i, s2) =>
            match expect "," s2 with
            | Some s3 =>
                match read_member "email" s3 with
                | Some (e, s4) =>
                    match expect "," s4 with
                    | Some s5 =>
                        match read_member "name" s5 with
                        | Some (n, s6) =>
                            if String.eqb s6 "}"
                            then Some (user_object
                                         {| user_id := i; email := e; name := n |})
                            else None
                        | None => None
                        end
                    | None => None
                    end
                | None => None
                end
            | None => None
            end
        | None => None
        end
    | None => None
    end.

(** A storage that takes every write, and one whose quota is used up. *)
Definition roomy : Storage -> string -> string -> bool := fun _ _ _ => true.
Definition full : Storage -> string -> string -> bool := fun _ _ _ => false.

End Auth.

(** ** Facts about [Array_sort] *)

Section ArraySortFacts.
Context {T : Type}.
Variable comparefn : T -> T -> option Z.

Lemma sort_insert_Permutation (x : T) (l : list T) :
  sort_insert comparefn x l ≡ₚ x :: l.
Proof.
  induction l as [|y l IH]; simpl; [reflexivity|].
  destruct (SortCompare comparefn x y <=? 0); [reflexivity|].
  rewrite IH. apply perm_swap.
Qed.

(** Whatever the comparator answers, the result holds the same elements. *)
Lemma Array_sort_Permutation (l : list T) : Array_sort comparefn l ≡ₚ l.
Proof.
  induction l as [|x l IH]; simpl; [reflexivity|].
  rewrite sort_insert_Permutation. by rewrite IH.
Qed.

Lemma Array_sort_length (l : list T) :
  length (Array_sort comparefn l) = length l.
Proof. by rewrite Array_sort_Permutation. Qed.

(** A comparator that, on the elements satisfying [ok], orders by the
    integer key [k]. *)
Variable k : T -> Z.
Variable ok : T -> Prop.
Hypothesis comparefn_key :
  forall x y, ok x -> ok y -> (SortCompare comparefn x y <=? 0) = (k x <=? k y).

Lemma sort_insert_Sorted (x : T) (l : list T) :
  ok x -> Forall ok l ->
  Sorted (fun a b => k a <= k b) l ->
  Sorted (fun a b => k a <= k b) (sort_insert comparefn x l).
Proof.
  intros Hx Hl Hs. induction l as [|y l IH]; simpl.
  - repeat constructor.
  - apply Forall_cons in Hl as [Hy Hl].
    rewrite comparefn_key by assumption.
    destruct (Z.leb_spec (k x) (k y)) as [Hle|Hgt].
    + constructor; [assumption|]. constructor. exact Hle.
    + apply Sorted_inv in Hs as [Hs Hhd].
      constructor; [by apply IH|].
      destruct l as [|z l]; simpl.
      * constructor. lia.
      * apply Forall_cons in Hl as [Hz _].
        rewrite comparefn_key by assumption.
        apply HdRel_inv in Hhd.
        destruct (k x <=? k z); constructor; lia.
Qed.

Lemma Array_sort_Sorted (l : list T) :
  Forall ok l -> Sorted (fun a b => k a <= k b) (Array_sort comparefn l).
Proof.
  induction 1 as [|x l Hx Hl IH]; simpl; [constructor|].
  apply sort_insert_Sorted; [assumption| |assumption].
  by rewrite Array_sort_Permutation.
Qed.

(** Insertion only passes elements with a strictly smaller key, so among
    the elements of one key the inserted one stays first. *)
Lemma sort_insert_stable (P : T -> Prop) `{!forall y, Decision (P y)}
    (x : T) (l : list T) :
  ok x -> Forall ok l ->
  (forall y, P x -> P y -> k x = k y) ->
  filter P (sort_insert comparefn x l) = filter P (x :: l).
Proof.
  intros Hx Hl HP. induction l as [|y l IH]; simpl; [reflexivity|].
  apply Forall_cons in Hl as [Hy Hl].
  rewrite comparefn_key by assumption.
  destruct (Z.leb_spec (k x) (k y)) as [Hle|Hgt]; [reflexivity|].
  rewrite !filter_cons in *. rewrite IH by assumption.
  destruct (decide (P x)) as [Px|]; [|reflexivity].
  destruct (decide (P y)) as [Py|]; [|reflexivity].
  specialize (HP y Px Py). lia.
Qed.

Lemma Array_sort_stable (P : T -> Prop) `{!forall y, Decision (P y)} (l : list T) :
  Forall ok l ->
  (forall x y, P x -> P y -> k x = k y) ->
  filter P (Array_sort comparefn l) = filter P l.
Proof.
  intros Hl HP. induction Hl as [|x l Hx Hl IH]; simpl; [reflexivity|].
  rewrite sort_insert_stable.
  - rewrite !filter_cons, IH. reflexivity.
  - assumption.
  - by rewrite Array_sort_Permutation.
  - intros y. apply HP.
Qed.

(** Two lists ordered by the key that agree, key by key, on the elements
    of that key and their order are the same list. *)
Lemma sorted_stable_unique (l1 : list T) : forall l2 : list T,
  Sorted (fun a b => k a <= k b) l1 ->
  Sorted (fun a b => k a <= k b) l2 ->
  (forall d : Z, filter (fun x => k x = d) l1 = filter (fun x => k x = d) l2) ->
  l1 = l2.
Proof.
  assert (Htrans : Transitive (fun a b : T => k a <= k b))
    by (intros a b c; lia).
  assert (Hhead : forall (x y : T) (l l' : list T),
            Sorted (fun a b => k a <= k b) (x :: l) ->
            filter (fun z => k z = k y) (x :: l)
            = filter (fun z => k z = k y) (y :: l') ->
            k x <= k y).
  { intros x y l l' Hs Hf.
    assert (Hin : y ∈ x :: l).
    { eapply (list_elem_of_filter (fun z => k z = k y)). rewrite Hf.
      rewrite filter_cons, decide_True by reflexivity. constructor. }
    apply Sorted_StronglySorted, StronglySorted_inv in Hs as [_ Hall];
      [|assumption].
    apply elem_of_cons in Hin as [->|Hin]; [lia|].
    rewrite Forall_forall in Hall. by apply Hall. }
  induction l1 as [|x l1 IH]; intros [|y l2] Hs1 Hs2 Hf.
  - reflexivity.
  - specialize (Hf (k y)).
    rewrite filter_cons, decide_True in Hf by reflexivity. discriminate Hf.
  - specialize (Hf (k x)).
    rewrite filter_cons, decide_True in Hf by reflexivity. discriminate Hf.
  - assert (Hk : k x = k y).
    { pose proof (Hhead x y l1 l2 Hs1 (Hf (k y))).
      pose proof (Hhead y x l2 l1 Hs2 (eq_sym (Hf (k x)))). lia. }
    assert (Hxy : x = y).
    { specialize (Hf (k x)). rewrite !filter_cons in Hf.
      rewrite decide_True in Hf by reflexivity.
      rewrite decide_True in Hf by congruence. congruence. }
    subst y. f_equal.
    apply IH; [by apply Sorted_inv in Hs1 as [? _]
              | by apply Sorted_inv in Hs2 as [? _] |].
    intros d. specialize (Hf d). rewrite !filter_cons in Hf.
    destruct (decide (k x = d)); congruence.
Qed.

(** So, when the comparator orders by a key, every stable sort returns
    what [Array_sort] returns. *)
Lemma Array_sort_unique (l out : list T) :
  Forall ok l ->
  Sorted (fun a b => k a <= k b) out ->
  (forall d : Z, filter (fun x => k x = d) out = filter (fun x => k x = d) l) ->
  out = Array_sort comparefn l.
Proof.
  intros Hl Hs Hst. apply sorted_stable_unique; [assumption| |].
  - by apply Array_sort_Sorted.
  - intros d. rewrite Hst. symmetry. apply Array_sort_stable; [assumption|].
    congruence.
Qed.

End ArraySortFacts.

(** Adjacent pairs of a [Sorted] list, by position. *)
Lemma Sorted_adjacent {T : Type} (R : T -> T -> Prop) (l : list T) :
  Sorted R l ->
  forall (i : nat) (a b : T), l !! i = Some a -> l !! S i = Some b -> R a b.
Proof.
  induction 1 as [|x l Hs IH Hhd]; intros i a b Ha Hb; [done|].
  destruct i as [|i]; simpl in *.
  - destruct l as [|y l]; [done|]. simplify_eq/=. by apply HdRel_inv in Hhd.
  - eauto.
Qed.

(** ** The date-only parser on known instants *)

Example Date_getTime_epoch : Date_getTime "1970-01-01" = Some 0.
Proof. reflexivity. Qed.

Example Date_getTime_mock : Date_getTime "2023-10-01" = Some 1696118400000.
Proof. reflexivity. Qed.

Example Date_getTime_leap_day : Date_getTime "2024-02-29" = Some 1709164800000.
Proof. reflexivity. Qed.

Example Date_getTime_no_leap_day : Date_getTime "2023-02-29" = None.
Proof. reflexivity. Qed.

Example Date_getTime_empty : Date_getTime "" = None.
Proof. reflexivity. Qed.

(** ** The display list: filtering and sorting *)

Section PipelineFacts.
Variable getTime : string -> TimeValue.

Lemma compareByDate_key (sortOrder : SortOrder) (x y : Transaction) :
  is_Some (time_of getTime x) -> is_Some (time_of getTime y) ->
  (SortCompare (compareByDate getTime sortOrder) x y <=? 0)
  = (sort_key getTime sortOrder x <=? sort_key getTime sortOrder y).
Proof.
  intros [a Ha] [b Hb].
  unfold SortCompare, compareByDate, sort_key, time_of in *.
  rewrite Ha, Hb. simpl.
  destruct (decide (sortOrder = desc)); simpl;
    destruct (Z.leb_spec (b - a) 0), (Z.leb_spec (a - b) 0),
             (Z.leb_spec (- a) (- b)), (Z.leb_spec a b); lia || reflexivity.
Qed.

Lemma processedTransactions_Permutation (txs : list Transaction)
    (filterType : FilterType) (sortOrder : SortOrder) :
  processedTransactions getTime txs filterType sortOrder
  ≡ₚ List.filter (keeps filterType) txs.
Proof. apply Array_sort_Permutation. Qed.

Lemma keeps_spec (filterType : FilterType) (t : Transaction) :
  keeps filterType t = true <->
  match filterType with
  | filter_all => True
  | filter_income => type t = income
  | filter_expense => type t = expense
  end.
Proof. destruct filterType, t as [? ? ? [] ? ?]; simpl; split; done. Qed.

Lemma filter_length_split (txs : list Transaction) :
  (length (List.filter (keeps filter_income) txs)
   + length (List.filter (keeps filter_expense) txs))%nat
  = length (List.filter (keeps filter_all) txs).
Proof.
  induction txs as [|[? ? ? [] ? ?] txs IH]; simpl in *; lia.
Qed.

(** C2.  On a collection of the data model, where the date of every record
    the filter retains is a calendar date, one the host parses to a valid
    instant, the displayed list is ordered by date (each adjacent pair
    non-increasing under [desc], non-decreasing under [asc]), and for every
    instant the records dated at it come out in the order they had in the
    filtered input (stability). *)
Theorem processedTransactions_sorted_stable (txs : list Transaction)
    (filterType : FilterType) (sortOrder : SortOrder) :
  Forall (fun t => is_Some (time_of getTime t)) (List.filter (keeps filterType) txs) ->
  date_ordered getTime sortOrder (processedTransactions getTime txs filterType sortOrder)
  /\ (forall v : TimeValue,
        dated getTime v (processedTransactions getTime txs filterType sortOrder)
        = dated getTime v (List.filter (keeps filterType) txs)).
Proof.
  intros Hvalid. unfold processedTransactions.
  set (input := List.filter (keeps filterType) txs) in *.
  pose proof (compareByDate_key sortOrder) as Hkey.
  split.
  - pose proof (Array_sort_Sorted _ _ _ Hkey input Hvalid) as Hs.
    assert (Hv' : Forall (fun t => is_Some (time_of getTime t))
                    (Array_sort (compareByDate getTime sortOrder) input))
      by (by rewrite Array_sort_Permutation).
    intros i a b Ha Hb.
    pose proof (Sorted_adjacent _ _ Hs i a b Ha Hb) as Hab. simpl in Hab.
    rewrite Forall_lookup in Hv'.
    destruct (Hv' _ _ Ha) as [va Hva], (Hv' _ _ Hb) as [vb Hvb].
    unfold sort_key, JS_le in *. rewrite Hva, Hvb in *. simpl in *.
    destruct (decide (sortOrder = desc)); apply Z.leb_le; lia.
  - intros v. unfold dated.
    apply (Array_sort_stable _ _ _ Hkey); [assumption|].
    intros x y Hx Hy. unfold sort_key. by rewrite Hx, Hy.
Qed.

(** With valid dates the displayed list is the only arrangement of the
    retained records that is ordered by the key and keeps, key by key, the
    order of the input: any stable sort the host runs returns it. *)
Lemma processedTransactions_unique (txs out : list Transaction)
    (filterType : FilterType) (sortOrder : SortOrder) :
  Forall (fun t => is_Some (time_of getTime t)) (List.filter (keeps filterType) txs) ->
  Sorted (fun a b => sort_key getTime sortOrder a <= sort_key getTime sortOrder b) out ->
  (forall d : Z,
     filter (fun t => sort_key getTime sortOrder t = d) out
     = filter (fun t => sort_key getTime sortOrder t = d)
         (List.filter (keeps filterType) txs)) ->
  out = processedTransactions getTime txs filterType sortOrder.
Proof.
  intros Hvalid Hs Hst.
  exact (Array_sort_unique _ _ _ (compareByDate_key sortOrder) _ _ Hvalid Hs Hst).
Qed.

Lemma filter_keeps_income (txs : list Transaction) :
  List.filter (keeps filter_income) txs = filter (fun t => type t = income) txs.
Proof.
  induction txs as [|[? ? ? [] ? ?] txs IH]; simpl; [reflexivity| |];
    rewrite filter_cons; simpl; by rewrite IH.
Qed.

Lemma filter_keeps_expense (txs : list Transaction) :
  List.filter (keeps filter_expense) txs = filter (fun t => type t = expense) txs.
Proof.
  induction txs as [|[? ? ? [] ? ?] txs IH]; simpl; [reflexivity| |];
    rewrite filter_cons; simpl; by rewrite IH.
Qed.

(** C7.  Under the income filter the displayed list holds income records
    only, under the expense filter expense records only, under [all] it
    holds every record of the collection, and the sizes of the first two add
    up to the size of the third.  More precisely, the list under the income
    filter is an arrangement of exactly the income records of the
    collection, each as often as the collection has it, and likewise for
    the expense filter. *)
Theorem processedTransactions_filter (txs : list Transaction) (sortOrder : SortOrder) :
  (forall t, t ∈ processedTransactions getTime txs filter_income sortOrder ->
             type t = income)
  /\ (forall t, t ∈ processedTransactions getTime txs filter_expense sortOrder ->
                type t = expense)
  /\ processedTransactions getTime txs filter_all sortOrder ≡ₚ txs
  /\ (length (processedTransactions getTime txs filter_income sortOrder)
      + length (processedTransactions getTime txs filter_expense sortOrder))%nat
     = length (processedTransactions getTime txs filter_all sortOrder)
  /\ processedTransactions getTime txs filter_income sortOrder
     ≡ₚ filter (fun t => type t = income) txs
  /\ processedTransactions getTime txs filter_expense sortOrder
     ≡ₚ filter (fun t => type t = expense) txs.
Proof.
  split; [|split; [|split; [|split; [|split]]]].
  - intros t Ht. rewrite processedTransactions_Permutation in Ht.
    apply list_elem_of_In, filter_In in Ht as [_ Ht]. by apply keeps_spec in Ht.
  - intros t Ht. rewrite processedTransactions_Permutation in Ht.
    apply list_elem_of_In, filter_In in Ht as [_ Ht]. by apply keeps_spec in Ht.
  - rewrite processedTransactions_Permutation.
    induction txs as [|t txs' IH]; simpl; [reflexivity|]. by rewrite IH.
  - unfold processedTransactions. rewrite !Array_sort_length.
    apply filter_length_split.
  - by rewrite processedTransactions_Permutation, filter_keeps_income.
  - by rewrite processedTransactions_Permutation, filter_keeps_expense.
Qed.

End PipelineFacts.

(** The mock pair, most recent first. *)
Lemma processedTransactions_sorted_stable_witness :
  date_ordered Date_getTime desc
    (processedTransactions Date_getTime mockData filter_all desc)
  /\ (forall v : TimeValue,
        dated Date_getTime v (processedTransactions Date_getTime mockData filter_all desc)
        = dated Date_getTime v (List.filter (keeps filter_all) mockData)).
Proof.
  apply (processedTransactions_sorted_stable Date_getTime mockData filter_all desc).
  simpl. repeat constructor; by eexists.
Defined.

(** A list of two or more records that is ordered by date, in either
    direction, has no Invalid Date in it: whatever order a sort gives to
    records one of which has no valid date, the comparison of the claim
    fails next to that record. *)
Lemma date_ordered_valid (getTime : string -> TimeValue) (sortOrder : SortOrder)
    (out : list Transaction) :
  (2 <= length out)%nat ->
  date_ordered getTime sortOrder out ->
  Forall (fun t => is_Some (time_of getTime t)) out.
Proof.
  intros Hlen Hord. apply Forall_lookup. intros i t Hi.
  assert (Hpair : forall a b : Transaction,
            (if decide (sortOrder = desc)
             then JS_ge (time_of getTime a) (time_of getTime b)
             else JS_le (time_of getTime a) (time_of getTime b)) = true ->
            is_Some (time_of getTime a) /\ is_Some (time_of getTime b)).
  { intros a b. unfold JS_le, JS_ge.
    destruct (decide (sortOrder = desc)), (time_of getTime a), (time_of getTime b);
      intros; try discriminate; split; eauto. }
  destruct i as [|i].
  - destruct (lookup_lt_is_Some_2 out 1%nat) as [b Hb]; [lia|].
    exact (proj1 (Hpair _ _ (Hord 0%nat t b Hi Hb))).
  - destruct (lookup_lt_is_Some_2 out i) as [a Ha];
      [apply lookup_lt_Some in Hi; lia|].
    exact (proj2 (Hpair _ _ (Hord i a t Ha Hi))).
Qed.

(** Outside the data model the order is lost: were a record whose date is
    not a date put into the collection, it would sit next to another record,
    and no comparison with NaN holds. *)
Lemma date_ordered_fails_on_invalid_date :
  ~ date_ordered Date_getTime desc
      (processedTransactions Date_getTime (undated :: mockData) filter_all desc).
Proof.
  intros H. specialize (H 0%nat _ _ eq_refl eq_refl). discriminate H.
Qed.

(** The same holds of every arrangement of those three records, so the
    failure does not hinge on the order the host's sort leaves them in. *)
Lemma no_arrangement_is_date_ordered (sortOrder : SortOrder) (out : list Transaction) :
  out ≡ₚ undated :: mockData -> ~ date_ordered Date_getTime sortOrder out.
Proof.
  intros Hperm Hord.
  assert (Hvalid : Forall (fun t => is_Some (time_of Date_getTime t)) out).
  { apply (date_ordered_valid _ sortOrder); [|assumption].
    rewrite Hperm. simpl. lia. }
  rewrite Hperm in Hvalid. apply Forall_cons in Hvalid as [[v Hv] _].
  discriminate Hv.
Qed.

(** The income filter on the mock pair shows the salary, an income record. *)
Lemma processedTransactions_filter_witness :
  (hd undated mockData ∈ processedTransactions Date_getTime mockData filter_income asc)
  /\ type (hd undated mockData) = income.
Proof.
  assert (H : hd undated mockData
              ∈ processedTransactions Date_getTime mockData filter_income asc)
    by (simpl; constructor).
  split; [exact H|].
  exact (proj1 (processedTransactions_filter Date_getTime mockData asc) _ H).
Defined.

(** The spec's display scenario: the mock pair under [all] and [desc] comes
    out most recent first, and under [asc] oldest first. *)
Example scenario_mock_desc :
  processedTransactions Date_getTime mockData filter_all desc = rev mockData.
Proof. reflexivity. Qed.

Example scenario_mock_asc :
  processedTransactions Date_getTime mockData filter_all asc = mockData.
Proof. reflexivity. Qed.

Example scenario_mock_expense :
  ids (processedTransactions Date_getTime mockData filter_expense desc) = ["2"].
Proof. reflexivity. Qed.

(** ** The summary totals *)

(** *** The sign of a rounded sum *)

Lemma Number_ge0_signed (x : Number) : Number_ge0 x = true <-> signed false x.
Proof.
  destruct x as [s|[]| |[] m e]; simpl; split; intros H;
    try reflexivity; try discriminate; try exact I; try contradiction.
Qed.

Lemma shr_1_nonneg (mrs : shr_record) : 0 <= shr_m mrs -> 0 <= shr_m (shr_1 mrs).
Proof.
  destruct mrs as [[|[p|p|]|p] r s0]; simpl; intros H; lia.
Qed.

Lemma iter_shr_1_nonneg (p : positive) : forall mrs : shr_record,
  0 <= shr_m mrs -> 0 <= shr_m (SpecFloat.iter_pos shr_1 p mrs).
Proof.
  induction p as [p IH|p IH|]; intros mrs H; simpl.
  - apply IH, IH, shr_1_nonneg, H.
  - apply IH, IH, H.
  - apply shr_1_nonneg, H.
Qed.

Lemma shr_fexp_nonneg (m e : Z) (l : location) :
  0 <= m -> 0 <= shr_m (shr_fexp 53 1024 m e l).1.
Proof.
  intros H. unfold shr_fexp, shr.
  assert (H0 : 0 <= shr_m (shr_record_of_loc m l))
    by (destruct l as [|[]]; exact H).
  destruct (fexp 53 1024 (Zdigits2 m + e) - e) as [|p|p]; simpl;
    [assumption| |assumption].
  by apply iter_shr_1_nonneg.
Qed.

Lemma round_nearest_even_nonneg (m : Z) (l : location) :
  0 <= m -> 0 <= round_nearest_even m l.
Proof.
  intros H. destruct l as [|[]]; simpl; try assumption; [|lia].
  destruct (Z.even m); lia.
Qed.

(** Rounding a non-negative mantissa keeps the sign it is given: the result
    is a zero, a finite number or an infinity of that sign, never NaN. *)
Lemma binary_round_aux_signed (s : bool) (m e : Z) (l : location) :
  0 <= m -> signed s (binary_round_aux 53 1024 s m e l).
Proof.
  intros H. unfold binary_round_aux.
  pose proof (shr_fexp_nonneg m e l H) as H1.
  destruct (shr_fexp 53 1024 m e l) as [mrs' e']. simpl in H1.
  pose proof (shr_fexp_nonneg _ e' loc_Exact
                (round_nearest_even_nonneg _ (loc_of_shr_record mrs') H1)) as H2.
  destruct (shr_fexp 53 1024
              (round_nearest_even (shr_m mrs') (loc_of_shr_record mrs')) e' loc_Exact)
    as [mrs'' e'']. simpl in H2.
  destruct (shr_m mrs'') as [|p|p]; simpl; [exact I| |lia].
  by destruct (e'' <=? 1024 - 53).
Qed.

Lemma binary_round_signed (s : bool) (m : positive) (e : Z) :
  signed s (binary_round 53 1024 s m e).
Proof.
  unfold binary_round.
  destruct (shl_align m e (fexp 53 1024 (Z.pos (digits2_pos m) + e))) as [mz ez].
  by apply binary_round_aux_signed.
Qed.

(** The sum of two numbers that are [>= 0] is [>= 0]: it is never NaN and
    never negative, though it may be an infinity. *)
Lemma Number_add_ge0 (x y : Number) :
  Number_ge0 x = true -> Number_ge0 y = true -> Number_ge0 (Number_add x y) = true.
Proof.
  rewrite !Number_ge0_signed. unfold Number_add.
  destruct x as [sx|sx| |sx mx ex], y as [sy|sy| |sy my ey]; simpl;
    intros Hx Hy; subst; try contradiction; try reflexivity; try exact I.
  - by destruct sx, sy.
  - apply binary_round_signed.
Qed.

(** *** The totals *)

(** [filter] then [reduce] adds the amounts of the matching records in
    collection order, which is what the sum of the spec does in one pass. *)
Lemma reduce_filter_sum (ty : TxType) (p : Transaction -> bool)
    (txs : list Transaction) :
  (forall t, p t = bool_decide (type t = ty)) ->
  forall acc : Number,
    fold_left add_amount (List.filter p txs) acc = sum_from acc ty txs.
Proof.
  intros Hp. induction txs as [|t txs IH]; intros acc; simpl; [reflexivity|].
  rewrite Hp. destruct (decide (type t = ty)) as [Heq|Hne].
  - rewrite bool_decide_eq_true_2 by assumption. simpl. apply IH.
  - rewrite bool_decide_eq_false_2 by assumption. apply IH.
Qed.

Lemma type_is_income (t : Transaction) :
  type_is "income" t = bool_decide (type t = income).
Proof. by destruct t as [? ? ? [] ? ?]. Qed.

Lemma type_is_expense (t : Transaction) :
  type_is "expense" t = bool_decide (type t = expense).
Proof. by destruct t as [? ? ? [] ? ?]. Qed.

Lemma sum_from_ge0 (ty : TxType) (txs : list Transaction) :
  Forall (fun t => Number_ge0 (amount t) = true) txs ->
  forall acc : Number,
    Number_ge0 acc = true -> Number_ge0 (sum_from acc ty txs) = true.
Proof.
  induction 1 as [|t txs Ht Htxs IH]; intros acc Hacc; simpl; [assumption|].
  apply IH. destruct (decide (type t = ty)); [|assumption].
  by apply Number_add_ge0.
Qed.

(** C1.  Whatever filter and sort order the view is in, the summary of a
    collection has [totalIncome] equal to the sum of the income amounts,
    [totalExpenses] equal to the sum of the expense amounts, both taken as
    the program's numbers add, in collection order, and [netBalance] equal
    to their difference; another filter or sort order gives the same
    summary; and both totals are [>= 0] when every amount is. *)
Theorem summary_totals (getTime : string -> TimeValue) (txs : list Transaction)
    (filterType filterType' : FilterType) (sortOrder sortOrder' : SortOrder) :
  let s := derived_summary (DashboardPage getTime txs filterType sortOrder) in
  totalIncome s = sum_of_type income txs
  /\ totalExpenses s = sum_of_type expense txs
  /\ netBalance s = Number_sub (totalIncome s) (totalExpenses s)
  /\ derived_summary (DashboardPage getTime txs filterType' sortOrder') = s
  /\ (Forall (fun t => Number_ge0 (amount t) = true) txs ->
      Number_ge0 (totalIncome s) = true /\ Number_ge0 (totalExpenses s) = true).
Proof.
  simpl.
  assert (Hi : fold_left add_amount (List.filter (type_is "income") txs) Number_zero
               = sum_of_type income txs)
    by apply (reduce_filter_sum income), type_is_income.
  assert (He : fold_left add_amount (List.filter (type_is "expense") txs) Number_zero
               = sum_of_type expense txs)
    by apply (reduce_filter_sum expense), type_is_expense.
  repeat split; try assumption.
  - rewrite Hi. by apply sum_from_ge0.
  - rewrite He. by apply sum_from_ge0.
Qed.

Example scenario_mock_totals :
  summary mockData
  = {| totalIncome := Number_of_Z 3000; totalExpenses := Number_of_Z 800;
       netBalance := Number_of_Z 2200 |}.
Proof. reflexivity. Qed.

(** The totals of the spec's two-record scenario. *)
Lemma summary_totals_witness :
  Forall (fun t => Number_ge0 (amount t) = true) mockData
  /\ Number_ge0 (totalIncome (summary mockData)) = true
  /\ Number_ge0 (totalExpenses (summary mockData)) = true.
Proof.
  assert (H : Forall (fun t => Number_ge0 (amount t) = true) mockData)
    by (repeat constructor).
  split; [exact H|].
  exact (proj2 (proj2 (proj2 (proj2
    (summary_totals Date_getTime mockData filter_all filter_income desc asc)))) H).
Defined.

(** The totals are rounded as the program's numbers are: incomes of 0.1 and
    0.2 add up to 0.30000000000000004, and a third of 0.3 brings the total
    to 0.6000000000000001, where adding from the right would give 0.6. *)
Example rounded_total_of_two :
  Number_add (Number_add Number_zero (Number_of_ratio 1 10)) (Number_of_ratio 2 10)
  = S754_finite false 5404319552844596 (-54).
Proof. reflexivity. Qed.

Example rounded_total_of_three :
  Number_add (Number_add (Number_add Number_zero (Number_of_ratio 1 10))
                         (Number_of_ratio 2 10)) (Number_of_ratio 3 10)
  = S754_finite false 5404319552844596 (-53)
  /\ Number_add (Number_of_ratio 1 10)
       (Number_add (Number_of_ratio 2 10) (Number_of_ratio 3 10))
     = S754_finite false 5404319552844595 (-53).
Proof. split; reflexivity. Qed.

(** ** The store *)

Lemma substring_length (s : string) : forall n m : nat,
  String.length (String.substring n m s) = Nat.min m (String.length s - n).
Proof.
  induction s as [|c s IH]; intros [|n] [|m]; simpl; try reflexivity.
  - by rewrite IH, Nat.sub_0_r.
  - by rewrite IH.
  - by rewrite IH.
Qed.

(** The generated id has the characters 2 to 8 of the rendering, as many as
    there are. *)
Lemma generated_id_length (rnd : string) :
  String.length (generated_id rnd) = Nat.min 7 (String.length rnd - 2).
Proof.
  unfold generated_id, JS_substring. rewrite substring_length. lia.
Qed.

Lemma ids_update (updatedTx : Transaction) (txs : list Transaction) :
  ids (map (fun tx => if String.eqb (id tx) (id updatedTx) then updatedTx else tx) txs)
  = ids txs.
Proof.
  unfold ids. induction txs as [|tx txs IH]; simpl; [reflexivity|].
  rewrite IH. by destruct (String.eqb_spec (id tx) (id updatedTx)) as [->|].
Qed.

Lemma ids_delete (i : string) (txs : list Transaction) :
  ids (List.filter (fun tx => negb (String.eqb (id tx) i)) txs)
  = filter (fun j => j <> i) (ids txs).
Proof.
  unfold ids. induction txs as [|tx txs IH]; simpl; [reflexivity|].
  rewrite filter_cons.
  destruct (String.eqb_spec (id tx) i) as [->|Hne]; simpl.
  - by rewrite decide_False by (by intros []).
  - rewrite decide_True by assumption. simpl. by rewrite IH.
Qed.

Lemma delete_length (i : string) (txs : list Transaction) :
  (length (List.filter (fun tx => negb (String.eqb (id tx) i)) txs)
   + count_id i txs)%nat = length txs.
Proof.
  unfold count_id. induction txs as [|tx txs IH]; simpl; [reflexivity|].
  rewrite filter_cons.
  destruct (String.eqb_spec (id tx) i) as [Heq|Hne]; simpl.
  - rewrite decide_True by assumption. simpl. lia.
  - rewrite decide_False by assumption. lia.
Qed.

Lemma count_id_absent (i : string) (txs : list Transaction) :
  i ∉ ids txs -> count_id i txs = 0%nat.
Proof.
  unfold count_id, ids. induction txs as [|tx txs IH]; simpl; [reflexivity|].
  rewrite not_elem_of_cons. intros [Hne Hnot].
  rewrite filter_cons, decide_False by congruence. by apply IH.
Qed.

Lemma count_id_unique (i : string) (txs : list Transaction) :
  NoDup (ids txs) -> i ∈ ids txs -> count_id i txs = 1%nat.
Proof.
  unfold ids. induction txs as [|tx txs IH]; simpl.
  - intros _ Hin. by apply elem_of_nil in Hin.
  - rewrite NoDup_cons. intros [Hnot Hnd] Hin.
    unfold count_id. rewrite filter_cons.
    destruct (decide (id tx = i)) as [<-|Hne]; simpl.
    + f_equal. by apply count_id_absent.
    + apply elem_of_cons in Hin as [Heq|Hin]; [congruence|]. by apply IH.
Qed.

(** Every action ends with the flag lowered. *)
Lemma actions_lower_flag (o : Op) (s : TransactionState) :
  isLoading (step s o) = false /\ isLoading (getAllTransactions s) = false.
Proof. by destruct o. Qed.

(** C4.  [updateTransaction r] keeps the length of the collection; at every
    position, a record whose id is [r]'s becomes [r] itself and any other
    record stays as it was; and when no record has [r]'s id the collection
    is left as it was. *)
Theorem updateTransaction_spec (r : Transaction) (s : TransactionState) :
  let txs := transactions s in
  let txs' := transactions (updateTransaction r s) in
  length txs' = length txs
  /\ (forall (i : nat) (tx : Transaction),
        txs !! i = Some tx ->
        txs' !! i = Some (if decide (id tx = id r) then r else tx))
  /\ (id r ∉ ids txs -> txs' = txs).
Proof.
  simpl. generalize (transactions s) as txs. intros txs. repeat split.
  - apply length_map.
  - induction txs as [|t txs IH]; intros [|i] tx Hi; simplify_eq/=.
    + by destruct (String.eqb_spec (id tx) (id r)), (decide (id tx = id r)).
    + by apply IH.
  - unfold ids. induction txs as [|t txs IH]; simpl; [reflexivity|].
    rewrite not_elem_of_cons. intros [Hne Hnot].
    rewrite IH by assumption.
    by destruct (String.eqb_spec (id t) (id r)) as [Heq|_]; [congruence|].
Qed.

(** On the mock pair: rewriting the second record leaves the first in
    place, and updating an id that is not there changes nothing. *)
Lemma updateTransaction_spec_witness :
  mockData !! 0%nat = Some (hd undated mockData)
  /\ transactions (updateTransaction (with_id coffee "2") (getAllTransactions initialState))
       !! 0%nat = Some (hd undated mockData)
  /\ (id undated ∉ ids mockData)
  /\ transactions (updateTransaction undated (getAllTransactions initialState))
     = mockData.
Proof.
  assert (H0 : mockData !! 0%nat = Some (hd undated mockData)) by reflexivity.
  assert (H : id undated ∉ ids mockData).
  { simpl. rewrite !not_elem_of_cons. repeat split; try discriminate.
    apply not_elem_of_nil. }
  refine (conj H0 (conj _ (conj H _))).
  - exact (proj1 (proj2
      (updateTransaction_spec (with_id coffee "2") (getAllTransactions initialState)))
      0%nat _ H0).
  - exact (proj2 (proj2
      (updateTransaction_spec undated (getAllTransactions initialState))) H).
Defined.

Example scenario_update_missing_id :
  transactions (updateTransaction undated (getAllTransactions initialState))
  = mockData.
Proof. reflexivity. Qed.

Example update_second_of_pair :
  map title (transactions (updateTransaction (with_id coffee "2")
                             (getAllTransactions initialState)))
  = ["Salario"; "Coffee"].
Proof. reflexivity. Qed.

(** C5, as amended.  After [deleteTransaction i] no record has the id [i],
    and the collection is shorter by the number of records that had it: it
    is left as it was when there was none, and it is shorter by exactly one
    when the ids of the collection are distinct and [i] is one of them. *)
Theorem deleteTransaction_spec (i : string) (s : TransactionState) :
  let txs := transactions s in
  let txs' := transactions (deleteTransaction i s) in
  (i ∉ ids txs')
  /\ (length txs' + count_id i txs)%nat = length txs
  /\ (i ∉ ids txs -> txs' = txs)
  /\ (NoDup (ids txs) -> i ∈ ids txs -> length txs = S (length txs')).
Proof.
  simpl. generalize (transactions s) as txs. intros txs. repeat split.
  - rewrite ids_delete, list_elem_of_filter. by intros [? _].
  - apply delete_length.
  - unfold ids. induction txs as [|t txs IH]; simpl; [reflexivity|].
    rewrite not_elem_of_cons. intros [Hne Hnot].
    destruct (String.eqb_spec (id t) i) as [Heq|_]; [congruence|]. simpl.
    by rewrite IH.
  - intros Hnd Hin. pose proof (delete_length i txs) as Hlen.
    rewrite (count_id_unique i txs Hnd Hin) in Hlen. lia.
Qed.

(** Deleting the second record of the mock pair, and deleting an id that
    is not in it. *)
Lemma deleteTransaction_spec_witness :
  NoDup (ids mockData) /\ ("2" ∈ ids mockData)
  /\ length mockData
     = S (length (transactions (deleteTransaction "2" (getAllTransactions initialState))))
  /\ ("3" ∉ ids mockData)
  /\ transactions (deleteTransaction "3" (getAllTransactions initialState)) = mockData.
Proof.
  assert (Hnd : NoDup (ids mockData)).
  { simpl. repeat constructor; rewrite ?not_elem_of_cons;
      repeat split; try discriminate; apply not_elem_of_nil. }
  assert (Hin : "2" ∈ ids mockData) by (simpl; apply elem_of_cons; right; constructor).
  assert (Hout : "3" ∉ ids mockData).
  { simpl. rewrite !not_elem_of_cons. repeat split; try discriminate.
    apply not_elem_of_nil. }
  refine (conj Hnd (conj Hin (conj _ (conj Hout _)))).
  - exact (proj2 (proj2 (proj2
      (deleteTransaction_spec "2" (getAllTransactions initialState)))) Hnd Hin).
  - exact (proj1 (proj2 (proj2
      (deleteTransaction_spec "3" (getAllTransactions initialState)))) Hout).
Defined.

(** C5 as stated fails: two records share the id ["i"], and deleting that
    id takes the collection from two records to none. *)
Lemma deleteTransaction_removes_two :
  ("i" ∈ ids (transactions two_coffees))
  /\ length (transactions two_coffees) = 2%nat
  /\ length (transactions (deleteTransaction "i" two_coffees)) = 0%nat.
Proof. repeat split. constructor. Qed.

(** C8.  [getAllTransactions] leaves the mock pair as the collection with
    the flag lowered; a second call leaves the same state as the first; and
    the state it leaves does not depend on the state it started from. *)
Theorem getAllTransactions_idempotent (s s' : TransactionState) :
  transactions (getAllTransactions s) = mockData
  /\ isLoading (getAllTransactions s) = false
  /\ getAllTransactions (getAllTransactions s) = getAllTransactions s
  /\ getAllTransactions s' = getAllTransactions s.
Proof. repeat split. Qed.

(** C10.  [addTransaction] puts the new record first; the records that were
    there follow it, each one position later and in the order they had. *)
Theorem addTransaction_prepends (newTx : Draft) (rnd : string) (s : TransactionState) :
  let txs' := transactions (addTransaction newTx rnd s) in
  txs' = with_id newTx (generated_id rnd) :: transactions s
  /\ txs' !! 0%nat = Some (with_id newTx (generated_id rnd))
  /\ (forall i : nat, txs' !! S i = transactions s !! i).
Proof. repeat split. Qed.

(** C6, as amended.  [addTransaction] makes the collection longer by exactly
    one; the new record has the draft's fields and as id the characters 2 to
    8 of the base-36 rendering of the draw, which are at most seven and at
    least one whenever the rendering has a digit after its ["0."]; the id is
    not compared with the ids present, so distinct ids stay distinct exactly
    when the generated id is not among them.  On the empty collection the
    result has length one. *)
Theorem addTransaction_spec (newTx : Draft) (rnd : string) (s : TransactionState) :
  let txs := transactions s in
  let txs' := transactions (addTransaction newTx rnd s) in
  length txs' = S (length txs)
  /\ head txs' = Some (with_id newTx (generated_id rnd))
  /\ (String.length (generated_id rnd) <= 7)%nat
  /\ ((2 < String.length rnd)%nat -> generated_id rnd <> "")
  /\ (NoDup (ids txs) -> (NoDup (ids txs') <-> (generated_id rnd ∉ ids txs)))
  /\ (txs = [] -> length txs' = 1%nat /\ (generated_id rnd ∉ ids txs)).
Proof.
  simpl. split; [reflexivity|]. split; [reflexivity|].
  split; [rewrite generated_id_length; lia|].
  split; [|split].
  - intros Hlen Hempty. pose proof (generated_id_length rnd) as Hl.
    rewrite Hempty in Hl. change (String.length "") with 0%nat in Hl. lia.
  - intros Hnd. rewrite NoDup_cons. tauto.
  - intros ->. split; [reflexivity | apply not_elem_of_nil].
Qed.

(** The creation scenario: the coffee draft on the empty collection, with
    the draw 0.5. *)
Lemma addTransaction_spec_witness :
  (2 < String.length half36)%nat
  /\ NoDup (ids (transactions initialState))
  /\ transactions initialState = []
  /\ generated_id half36 <> ""
  /\ NoDup (ids (transactions (addTransaction coffee half36 initialState)))
  /\ length (transactions (addTransaction coffee half36 initialState)) = 1%nat.
Proof.
  pose proof (addTransaction_spec coffee half36 initialState) as H.
  simpl in H. destruct H as (_ & _ & _ & Hne & Hnd & Hempty).
  assert (H2 : (2 < String.length half36)%nat) by (simpl; lia).
  assert (H0 : NoDup (ids (transactions initialState))) by constructor.
  refine (conj H2 (conj H0 (conj eq_refl (conj (Hne H2) (conj _ _))))).
  - apply (proj2 (Hnd H0)). apply not_elem_of_nil.
  - exact (proj1 (Hempty eq_refl)).
Defined.

(** What [substring(2, 9)] keeps of a rendering: the digits after ["0."],
    seven at most; nothing of the rendering of the draw 0. *)
Example generated_id_half : generated_id half36 = "i".
Proof. reflexivity. Qed.

Example generated_id_long : generated_id "0.4fzyo82mvyr" = "4fzyo82".
Proof. reflexivity. Qed.

Example generated_id_zero : generated_id "0" = "".
Proof. reflexivity. Qed.

Example scenario_create_on_empty :
  transactions (addTransaction coffee half36 initialState) = [with_id coffee "i"].
Proof. reflexivity. Qed.

(** C6 as stated fails: on a collection that holds a record made from the
    draw 0.5, a create that draws 0.5 again adds a record whose id is already
    present. *)
Lemma addTransaction_repeats_an_id :
  exists tx : Transaction,
    head (transactions (addTransaction coffee half36 one_coffee)) = Some tx
    /\ id tx ∈ ids (transactions one_coffee).
Proof. eexists. split; [reflexivity|]. constructor. Qed.

(** *** Sequences of calls *)

Lemma step_ids (s : TransactionState) (o : Op) (i : string) :
  i ∈ ids (transactions (step s o)) ->
  i ∈ ids (transactions s)
  \/ exists newTx rnd, o = Create newTx rnd /\ i = generated_id rnd.
Proof.
  destruct o as [newTx rnd|updatedTx|j]; simpl.
  - rewrite elem_of_cons. intros [->|Hin]; [right; eauto | by left].
  - rewrite ids_update. by left.
  - rewrite ids_delete, list_elem_of_filter. intros [_ Hin]. by left.
Qed.

Lemma run_ids_from (ops : list Op) : forall (s : TransactionState) (i : string),
  i ∈ ids (transactions (run ops s)) ->
  i ∈ ids (transactions s)
  \/ exists newTx rnd, Create newTx rnd ∈ ops /\ i = generated_id rnd.
Proof.
  induction ops as [|o ops IH]; intros s i Hin; simpl in *; [by left|].
  destruct (IH _ _ Hin) as [Hstep|(newTx & rnd & Hops & ->)].
  - destruct (step_ids _ _ _ Hstep) as [Hs|(newTx & rnd & -> & ->)]; [by left|].
    right. exists newTx, rnd. split; [constructor | reflexivity].
  - right. exists newTx, rnd. split; [by constructor | reflexivity].
Qed.

Lemma step_NoDup (s : TransactionState) (o : Op) :
  NoDup (ids (transactions s)) ->
  match o with
  | Create _ rnd => generated_id rnd ∉ ids (transactions s)
  | _ => True
  end ->
  NoDup (ids (transactions (step s o))).
Proof.
  intros Hnd Hfresh. destruct o as [newTx rnd|updatedTx|j]; simpl.
  - by apply NoDup_cons.
  - by rewrite ids_update.
  - rewrite ids_delete. by apply NoDup_filter.
Qed.

Lemma run_NoDup (ops : list Op) : forall s : TransactionState,
  NoDup (ids (transactions s)) -> creates_fresh ops s ->
  NoDup (ids (transactions (run ops s))).
Proof.
  induction ops as [|o ops IH]; intros s Hnd Hfresh; simpl in *; [assumption|].
  destruct Hfresh as [Ho Hrest]. apply IH; [|assumption].
  by apply step_NoDup.
Qed.

(** C3, as amended.  After any sequence of creates, updates and deletes run
    from the empty collection, every id in the collection was generated by a
    create of the sequence; the ids are distinct provided every create drew
    an id that was not in the collection at that moment, which the code does
    not check. *)
Theorem run_ids_invariant (ops : list Op) :
  let txs := transactions (run ops initialState) in
  (forall i : string, i ∈ ids txs ->
     exists newTx rnd, Create newTx rnd ∈ ops /\ i = generated_id rnd)
  /\ (creates_fresh ops initialState -> NoDup (ids txs)).
Proof.
  simpl. split.
  - intros i Hin. destruct (run_ids_from _ _ _ Hin) as [Hempty|Hcreated];
      [|assumption].
    simpl in Hempty. by apply elem_of_nil in Hempty.
  - apply run_NoDup. constructor.
Qed.

(** The sequence [create_update_delete]: its one create draws a fresh id,
    and the id it leaves in the collection is the one that create made. *)
Lemma run_ids_invariant_witness :
  creates_fresh create_update_delete initialState
  /\ NoDup (ids (transactions (run create_update_delete initialState)))
  /\ ("i" ∈ ids (transactions (run create_update_delete initialState)))
  /\ exists newTx rnd,
       Create newTx rnd ∈ create_update_delete /\ "i" = generated_id rnd.
Proof.
  assert (H : creates_fresh create_update_delete initialState).
  { simpl. repeat split. apply not_elem_of_nil. }
  assert (Hin : "i" ∈ ids (transactions (run create_update_delete initialState)))
    by (simpl; constructor).
  refine (conj H (conj _ (conj Hin _))).
  - exact (proj2 (run_ids_invariant create_update_delete) H).
  - exact (proj1 (run_ids_invariant create_update_delete) "i" Hin).
Defined.

(** C3 as stated fails: two creates that draw the same number leave two
    records with one id. *)
Lemma run_two_creates_duplicate_id :
  ~ NoDup (ids (transactions (run two_creates initialState))).
Proof.
  simpl. rewrite NoDup_cons. intros [Hnot _]. apply Hnot. constructor.
Qed.

(** ** The pipeline on the heap *)

Lemma bind_run {A B : Type} (m : Mem.M A) (k : A -> Mem.M B)
    (h h' : Mem.Heap) (a : A) :
  m h = Some (a, h') -> (m ≫= k) h = k a h'.
Proof. intros Hm. unfold mbind, Mem.M_bind, Mem.bind. by rewrite Hm. Qed.

Lemma fresh_unallocated (h : Mem.Heap) : h !! fresh (dom h) = None.
Proof. apply not_elem_of_dom, is_fresh. Qed.

(** [filter] leaves every allocated array as it is and returns a reference
    that was not allocated. *)
Lemma filter_run (r : Mem.loc) (p : Transaction -> bool) (h : Mem.Heap)
    (l : list Transaction) :
  h !! r = Some l ->
  Mem.filter r p h = Some (fresh (dom h), <[fresh (dom h) := List.filter p l]> h).
Proof. intros Hr. unfold Mem.filter. by rewrite Hr. Qed.

Lemma reduce_run {A : Type} (r : Mem.loc) (f : A -> Transaction -> A) (init : A)
    (h : Mem.Heap) (l : list Transaction) :
  h !! r = Some l -> Mem.reduce r f init h = Some (fold_left f l init, h).
Proof. intros Hr. unfold Mem.reduce. by rewrite Hr. Qed.

Lemma sort_run (r : Mem.loc) (cmp : Transaction -> Transaction -> option Z)
    (h : Mem.Heap) (l : list Transaction) :
  h !! r = Some l -> Mem.sort r cmp h = Some (r, <[r := Array_sort cmp l]> h).
Proof. intros Hr. unfold Mem.sort. by rewrite Hr. Qed.

Lemma summary_mem_run (transactions : Mem.loc) (h : Mem.Heap)
    (txs : list Transaction) :
  h !! transactions = Some txs ->
  exists h' : Mem.Heap,
    summary_mem transactions h = Some (summary txs, h') /\ h ⊆ h'.
Proof.
  intros Hr. unfold summary_mem.
  set (r1 := fresh (dom h)).
  set (h1 := <[r1 := List.filter (type_is "income") txs]> h).
  assert (Hsub1 : h ⊆ h1) by apply insert_subseteq, fresh_unallocated.
  rewrite (bind_run _ _ h h1 r1) by by apply filter_run.
  rewrite (bind_run _ _ h1 h1 _) by apply reduce_run, lookup_insert_eq.
  set (r2 := fresh (dom h1)).
  set (h2 := <[r2 := List.filter (type_is "expense") txs]> h1).
  assert (Hsub2 : h1 ⊆ h2) by apply insert_subseteq, fresh_unallocated.
  rewrite (bind_run _ _ h1 h2 r2)
    by (apply filter_run; by eapply lookup_weaken).
  rewrite (bind_run _ _ h2 h2 _) by apply reduce_run, lookup_insert_eq.
  exists h2. split; [reflexivity|]. by etrans.
Qed.

Lemma processedTransactions_mem_run (getTime : string -> TimeValue)
    (transactions : Mem.loc) (h : Mem.Heap) (txs : list Transaction)
    (filterType : FilterType) (sortOrder : SortOrder) :
  h !! transactions = Some txs ->
  exists (r : Mem.loc) (h' : Mem.Heap),
    processedTransactions_mem getTime transactions filterType sortOrder h = Some (r, h')
    /\ h ⊆ h'
    /\ h !! r = None
    /\ h' !! r = Some (processedTransactions getTime txs filterType sortOrder).
Proof.
  intros Hr. unfold processedTransactions_mem.
  set (r1 := fresh (dom h)).
  set (h1 := <[r1 := List.filter (keeps filterType) txs]> h).
  rewrite (bind_run _ _ h h1 r1) by by apply filter_run.
  rewrite (sort_run _ _ _ (List.filter (keeps filterType) txs))
    by apply lookup_insert_eq.
  eexists _, _. split; [reflexivity|]. subst h1.
  rewrite insert_insert_eq. split; [|split].
  - apply insert_subseteq, fresh_unallocated.
  - apply fresh_unallocated.
  - apply lookup_insert_eq.
Qed.

(** C9.  One render, run on a heap in which the store's [transactions]
    refers to the array [txs], returns the summary of [txs] and a reference
    to a newly allocated array holding the filtered and sorted list; in the
    heap it leaves, the store's array is still [txs], element for element
    and in the same order, and so is every other array that existed. *)
Theorem DashboardPage_mem_read_only (getTime : string -> TimeValue)
    (h : Mem.Heap) (transactions : Mem.loc) (txs : list Transaction)
    (filterType : FilterType) (sortOrder : SortOrder) :
  h !! transactions = Some txs ->
  exists (s : Summary) (r : Mem.loc) (h' : Mem.Heap),
    DashboardPage_mem getTime transactions filterType sortOrder h = Some ((s, r), h')
    /\ h' !! transactions = Some txs
    /\ (forall (r0 : Mem.loc) (l : list Transaction),
          h !! r0 = Some l -> h' !! r0 = Some l)
    /\ s = summary txs
    /\ r <> transactions
    /\ h' !! r = Some (processedTransactions getTime txs filterType sortOrder).
Proof.
  intros Hr. unfold DashboardPage_mem.
  destruct (summary_mem_run transactions h txs Hr) as (h1 & Hrun1 & Hsub1).
  assert (Hr1 : h1 !! transactions = Some txs) by by eapply lookup_weaken.
  destruct (processedTransactions_mem_run getTime transactions h1 txs
              filterType sortOrder Hr1) as (r & h2 & Hrun2 & Hsub2 & Hnew & Hout).
  exists (summary txs), r, h2.
  rewrite (bind_run _ _ _ _ _ Hrun1), (bind_run _ _ _ _ _ Hrun2).
  assert (Hsub : h ⊆ h2) by by etrans.
  split; [reflexivity|]. split; [by eapply lookup_weaken|].
  split; [intros r0 l H0; by eapply lookup_weaken|].
  split; [reflexivity|]. split; [|assumption].
  intros ->. congruence.
Qed.

(** The render of the mock pair held at reference 0. *)
Lemma DashboardPage_mem_read_only_witness :
  ({[ 0%nat := mockData ]} : Mem.Heap) !! 0%nat = Some mockData
  /\ exists (s : Summary) (r : Mem.loc) (h' : Mem.Heap),
       DashboardPage_mem Date_getTime 0%nat filter_all desc {[ 0%nat := mockData ]}
       = Some ((s, r), h')
       /\ h' !! 0%nat = Some mockData
       /\ r <> 0%nat
       /\ h' !! r = Some (rev mockData).
Proof.
  assert (H : ({[ 0%nat := mockData ]} : Mem.Heap) !! 0%nat = Some mockData)
    by reflexivity.
  split; [exact H|].
  destruct (DashboardPage_mem_read_only Date_getTime _ _ _ filter_all desc H)
    as (s & r & h' & Hrun & Hkept & Hframe & _ & Hnew & Hout).
  exists s, r, h'.
  exact (conj Hrun (conj (Hframe 0%nat mockData H) (conj Hnew Hout))).
Defined.

(** Calling [sort] on the store's own array would reorder it: it is the
    copy made by [filter] that keeps the store's array out of reach. *)
Example sort_in_place_reorders :
  exists h' : Mem.Heap,
    Mem.sort 0%nat (compareByDate Date_getTime desc) {[ 0%nat := mockData ]}
    = Some (0%nat, h')
    /\ h' !! 0%nat = Some (rev mockData).
Proof. eexists. split; reflexivity. Qed.

(** ** Further properties of the store *)

Lemma filter_filter_comm {A : Type} (p q : A -> bool) (l : list A) :
  List.filter p (List.filter q l) = List.filter q (List.filter p l).
Proof.
  induction l as [|x l IH]; simpl; [reflexivity|].
  destruct (q x) eqn:Hq, (p x) eqn:Hp; simpl; rewrite ?Hq, ?Hp, IH; reflexivity.
Qed.

Lemma filter_filter_same {A : Type} (p : A -> bool) (l : list A) :
  List.filter p (List.filter p l) = List.filter p l.
Proof.
  induction l as [|x l IH]; simpl; [reflexivity|].
  destruct (p x) eqn:Hp; simpl; rewrite ?Hp, IH; reflexivity.
Qed.

Lemma filter_sublist {A : Type} (p : A -> bool) (l : list A) :
  List.filter p l `sublist_of` l.
Proof.
  induction l as [|x l IH]; simpl; [constructor|].
  destruct (p x); by constructor.
Qed.

Lemma delete_absent (i : string) (txs : list Transaction) :
  i ∉ ids txs ->
  List.filter (fun tx => negb (String.eqb (id tx) i)) txs = txs.
Proof.
  unfold ids. induction txs as [|t txs IH]; simpl; [reflexivity|].
  rewrite not_elem_of_cons. intros [Hne Hnot].
  destruct (String.eqb_spec (id t) i) as [Heq|_]; [congruence|]. simpl.
  by rewrite IH.
Qed.

(** X1.  Deleting the id a create has just generated leaves the collection
    that deleting that id before the create would have left; when the id was
    not in the collection, that is the collection before the create. *)
Theorem create_then_delete (newTx : Draft) (rnd : string) (s : TransactionState) :
  let s' := deleteTransaction (generated_id rnd) (addTransaction newTx rnd s) in
  transactions s' = transactions (deleteTransaction (generated_id rnd) s)
  /\ (generated_id rnd ∉ ids (transactions s) -> transactions s' = transactions s).
Proof.
  simpl. rewrite String.eqb_refl. simpl. split; [reflexivity|].
  apply delete_absent.
Qed.

Lemma create_then_delete_witness :
  (generated_id half36 ∉ ids mockData)
  /\ transactions (deleteTransaction (generated_id half36)
                     (addTransaction coffee half36 (getAllTransactions initialState)))
     = mockData.
Proof.
  assert (H : generated_id half36 ∉ ids mockData).
  { simpl. rewrite !not_elem_of_cons. repeat split; try discriminate.
    apply not_elem_of_nil. }
  split; [exact H|].
  exact (proj2 (create_then_delete coffee half36 (getAllTransactions initialState)) H).
Defined.

(** X2.  An update never changes which ids the collection holds nor their
    order, and applying the same update twice is the same as applying it
    once. *)
Theorem update_keeps_ids (r : Transaction) (s : TransactionState) :
  ids (transactions (updateTransaction r s)) = ids (transactions s)
  /\ updateTransaction r (updateTransaction r s) = updateTransaction r s.
Proof.
  split; [apply ids_update|].
  unfold updateTransaction, set. simpl. f_equal.
  induction (transactions s) as [|t txs IH]; simpl; [reflexivity|].
  rewrite IH. f_equal.
  destruct (String.eqb_spec (id t) (id r)) as [_|Hne].
  - by rewrite String.eqb_refl.
  - by destruct (String.eqb_spec (id t) (id r)).
Qed.

Lemma delete_is_filter (i : string) (txs : list Transaction) :
  List.filter (fun tx => negb (String.eqb (id tx) i)) txs
  = filter (fun tx => id tx <> i) txs.
Proof.
  induction txs as [|t txs IH]; simpl; [reflexivity|].
  rewrite filter_cons, IH.
  destruct (String.eqb_spec (id t) i) as [Heq|Hne]; simpl.
  - by rewrite decide_False by (by intros []).
  - by rewrite decide_True.
Qed.

(** X3.  A delete leaves exactly the records with another id, each as
    often as it was there and in the order they had; deleting the same id
    again changes nothing, and two deletes give the same state in either
    order. *)
Theorem delete_keeps_others (i j : string) (s : TransactionState) :
  transactions (deleteTransaction i s)
  = filter (fun tx => id tx <> i) (transactions s)
  /\ (forall tx : Transaction,
        (tx ∈ transactions (deleteTransaction i s)) <->
        (tx ∈ transactions s) /\ id tx <> i)
  /\ (transactions (deleteTransaction i s) `sublist_of` transactions s)
  /\ deleteTransaction i (deleteTransaction i s) = deleteTransaction i s
  /\ deleteTransaction i (deleteTransaction j s)
     = deleteTransaction j (deleteTransaction i s).
Proof.
  unfold deleteTransaction, set. simpl.
  split; [|split; [|split; [|split]]].
  - apply delete_is_filter.
  - intros tx. rewrite !list_elem_of_In, filter_In.
    destruct (String.eqb_spec (id tx) i); simpl; intuition congruence.
  - apply filter_sublist.
  - f_equal. apply filter_filter_same.
  - f_equal. apply filter_filter_comm.
Qed.

(** A delete of an id that is not there keeps both of two equal records. *)
Example delete_keeps_copies :
  length (transactions (deleteTransaction "zz" two_coffees)) = 2%nat.
Proof. reflexivity. Qed.

(** ** Calls that overlap *)

Lemma call_in_two_pieces (c : Overlap.Call) (s : TransactionState) :
  Overlap.call s c = Overlap.finish c (Overlap.begin s).
Proof. by destruct c as [|[]]. Qed.

Lemma finish_transactions (c : Overlap.Call) (s1 s2 : TransactionState) :
  transactions s1 = transactions s2 ->
  transactions (Overlap.finish c s1) = transactions (Overlap.call s2 c).
Proof. intros H. destruct c as [|[]]; simpl; by rewrite ?H. Qed.

Lemma exec_transactions (events : list Overlap.Event) :
  forall s1 s2 : TransactionState,
    transactions s1 = transactions s2 ->
    transactions (Overlap.exec events s1)
    = transactions (fold_left Overlap.call (Overlap.finished events) s2).
Proof.
  induction events as [|[|c] events IH]; intros s1 s2 H; simpl.
  - exact H.
  - by apply IH.
  - by apply IH, finish_transactions.
Qed.

(** X4.  However the calls of the store overlap, the collection they leave
    is the one left by running the same calls one after another, each to
    completion, in the order in which their timers fired: an overlapping
    create, update or delete loses no write of another. *)
Theorem overlap_is_sequential (events : list Overlap.Event) (s : TransactionState) :
  transactions (Overlap.exec events s)
  = transactions (fold_left Overlap.call (Overlap.finished events) s).
Proof. by apply exec_transactions. Qed.

Lemma exec_snoc (events : list Overlap.Event) (e : Overlap.Event)
    (s : TransactionState) :
  Overlap.exec (events ++ [e]) s = Overlap.occur (Overlap.exec events s) e.
Proof. unfold Overlap.exec. by rewrite fold_left_app. Qed.

(** X5.  The flag tells only what happened last: it is up when the last
    event was a call starting and down when it was a call finishing, however
    many other calls are still waiting for their timers. *)
Theorem flag_follows_last_event (events : list Overlap.Event) (s : TransactionState) :
  isLoading (Overlap.exec events s)
  = match last events with
    | None => isLoading s
    | Some Overlap.Started => true
    | Some (Overlap.Finished _) => false
    end.
Proof.
  destruct events as [|e events] using rev_ind; [reflexivity|].
  rewrite exec_snoc, last_snoc. by destruct e as [|[|[]]].
Qed.

(** Two creates in flight: when the first finishes the flag drops although
    the second is still pending, and both records are kept. *)
Example flag_drops_while_pending :
  let events := [Overlap.Started; Overlap.Started;
                 Overlap.Finished (Overlap.Mutate (Create coffee half36))] in
  Overlap.pending 0 events = 1%nat
  /\ isLoading (Overlap.exec events initialState) = false.
Proof. split; reflexivity. Qed.

(** ** Further properties of the display list *)

Lemma ids_filter_NoDup (p : Transaction -> bool) (txs : list Transaction) :
  NoDup (ids txs) -> NoDup (ids (List.filter p txs)).
Proof.
  unfold ids. induction txs as [|t txs IH]; simpl; [done|].
  rewrite NoDup_cons. intros [Hnot Hnd].
  destruct (p t); simpl; [|by apply IH].
  apply NoDup_cons. split; [|by apply IH].
  intros Hin. apply Hnot.
  apply list_elem_of_fmap in Hin as (t' & -> & Hin).
  apply list_elem_of_fmap. exists t'. split; [reflexivity|].
  apply list_elem_of_In. apply list_elem_of_In, filter_In in Hin. tauto.
Qed.

Lemma ids_processedTransactions (getTime : string -> TimeValue)
    (txs : list Transaction) (filterType : FilterType) (sortOrder : SortOrder) :
  ids (processedTransactions getTime txs filterType sortOrder)
  ≡ₚ ids (List.filter (keeps filterType) txs).
Proof. apply Permutation_map, Array_sort_Permutation. Qed.

(** X6.  When the ids of the collection are distinct, so are the ids of the
    rows, which the table uses as keys; this holds for every filter, sort
    order and date parser. *)
Theorem rows_keys_unique (getTime : string -> TimeValue) (txs : list Transaction)
    (filterType : FilterType) (sortOrder : SortOrder) :
  NoDup (ids txs) ->
  NoDup (ids (processedTransactions getTime txs filterType sortOrder)).
Proof.
  intros Hnd. rewrite ids_processedTransactions. by apply ids_filter_NoDup.
Qed.

Lemma rows_keys_unique_witness :
  NoDup (ids mockData)
  /\ NoDup (ids (processedTransactions Date_getTime mockData filter_all desc)).
Proof.
  assert (Hnd : NoDup (ids mockData)).
  { simpl. repeat constructor; rewrite ?not_elem_of_cons;
      repeat split; try discriminate; apply not_elem_of_nil. }
  split; [exact Hnd|].
  exact (rows_keys_unique Date_getTime mockData filter_all desc Hnd).
Defined.

(** X7.  Once an id has been deleted, no row carries it, whatever the
    filter, the sort order and the dates of the records. *)
Theorem deleted_id_not_shown (getTime : string -> TimeValue) (i : string)
    (s : TransactionState) (filterType : FilterType) (sortOrder : SortOrder) :
  i ∉ ids (processedTransactions getTime (transactions (deleteTransaction i s))
             filterType sortOrder).
Proof.
  rewrite ids_processedTransactions. intros Hin.
  apply list_elem_of_fmap in Hin as (t & -> & Hin).
  apply list_elem_of_In, filter_In in Hin as [Hin _].
  apply filter_In in Hin as [_ Hne].
  by rewrite String.eqb_refl in Hne.
Qed.

(** X8.  A create shows in the rows only through the filter: when the new
    record passes the filter it is one of the rows and there is one row
    more, and when it does not the rows are exactly what they were; and a
    new expense leaves [totalIncome] as it was, a new income
    [totalExpenses]. *)
Theorem create_and_rows (getTime : string -> TimeValue) (newTx : Draft)
    (rnd : string) (s : TransactionState) (filterType : FilterType)
    (sortOrder : SortOrder) :
  let new := with_id newTx (generated_id rnd) in
  let before := processedTransactions getTime (transactions s) filterType sortOrder in
  let after := processedTransactions getTime
                 (transactions (addTransaction newTx rnd s)) filterType sortOrder in
  (if keeps filterType new
   then (new ∈ after) /\ length after = S (length before)
   else after = before)
  /\ match draft_type newTx with
     | expense => totalIncome (summary (transactions (addTransaction newTx rnd s)))
                  = totalIncome (summary (transactions s))
     | income => totalExpenses (summary (transactions (addTransaction newTx rnd s)))
                 = totalExpenses (summary (transactions s))
     end.
Proof.
  simpl. split.
  - unfold processedTransactions. simpl.
    destruct (keeps filterType (with_id newTx (generated_id rnd))) eqn:Hk;
      [|reflexivity].
    split.
    + rewrite Array_sort_Permutation. constructor.
    + by rewrite !Array_sort_length.
  - by destruct newTx as [? ? [] ? ?].
Qed.

(** *** The sort button *)

Lemma Sorted_weaken {A : Type} (R R' : A -> A -> Prop) (l : list A) :
  (forall a b, R a b -> R' a b) -> Sorted R l -> Sorted R' l.
Proof.
  intros HR. induction 1 as [|x l Hs IH Hhd]; constructor; [assumption|].
  destruct Hhd; constructor; auto.
Qed.

Lemma reverse_short {A : Type} (l : list A) :
  (length l <= 1)%nat -> reverse l = l.
Proof. destruct l as [|x [|y l]]; simpl; [done | done | lia]. Qed.

Lemma sort_key_toggle (getTime : string -> TimeValue) (sortOrder : SortOrder)
    (t : Transaction) :
  sort_key getTime (if decide (sortOrder = asc) then desc else asc) t
  = - sort_key getTime sortOrder t.
Proof. unfold sort_key. destruct sortOrder; simpl; lia. Qed.

Lemma filter_none {A : Type} (P : A -> Prop) `{!forall x, Decision (P x)} (l : list A) :
  (forall y, y ∈ l -> ~ P y) -> filter P l = [].
Proof.
  induction l as [|x l IH]; intros Hno; [reflexivity|].
  rewrite filter_cons, decide_False by (apply Hno; constructor).
  apply IH. intros y Hy. apply Hno. by constructor.
Qed.

(** Among records with valid and pairwise different instants, at most one
    has a given key. *)
Lemma one_record_per_key (getTime : string -> TimeValue) (sortOrder : SortOrder)
    (d : Z) (l : list Transaction) :
  Forall (fun t => is_Some (time_of getTime t)) l ->
  NoDup (map (time_of getTime) l) ->
  (length (filter (fun t => sort_key getTime sortOrder t = d) l) <= 1)%nat.
Proof.
  induction 1 as [|x l [vx Hx] Hl IH]; simpl; [lia|].
  rewrite NoDup_cons. intros [Hnot Hnd].
  rewrite filter_cons. destruct (decide (sort_key getTime sortOrder x = d)) as [Hd|];
    [|by apply IH].
  simpl. assert (Hnone : filter (fun t => sort_key getTime sortOrder t = d) l = []).
  { apply filter_none. intros y Hy Hyd. apply Hnot.
    rewrite Forall_forall in Hl. destruct (Hl y Hy) as [vy Hvy].
    apply list_elem_of_fmap. exists y. split; [|assumption].
    unfold sort_key in *. rewrite Hx, Hvy in *. simpl in *.
    f_equal. destruct (decide (sortOrder = desc)); lia. }
  rewrite Hnone. simpl. lia.
Qed.

(** X9.  When the retained records have valid and pairwise different
    dates, pressing the sort button turns the list of rows around. *)
Theorem toggle_reverses_rows (getTime : string -> TimeValue) (v : View.ViewState)
    (s : TransactionState) :
  Forall (fun t => is_Some (time_of getTime t))
    (List.filter (keeps (View.filterType v)) (transactions s)) ->
  NoDup (map (time_of getTime)
           (List.filter (keeps (View.filterType v)) (transactions s))) ->
  View.rows getTime (View.toggleSortOrder v) s = reverse (View.rows getTime v s).
Proof.
  symmetry.
  unfold View.rows, View.toggleSortOrder, processedTransactions. simpl.
  generalize dependent (View.filterType v). intros filterType.
  generalize (View.sortOrder v). intros sortOrder.
  set (input := List.filter (keeps filterType) (transactions s)).
  set (other := if decide (sortOrder = asc) then desc else asc).
  intros Hvalid Hdistinct.
  apply (Array_sort_unique _ (sort_key getTime other)
           (fun t => is_Some (time_of getTime t)) (compareByDate_key getTime other));
    [assumption| |].
  - eapply Sorted_weaken;
      [|apply Sorted_reverse,
          (Array_sort_Sorted _ _ _ (compareByDate_key getTime sortOrder)), Hvalid].
    intros a b Hab. unfold flip in Hab. subst other.
    rewrite !sort_key_toggle. lia.
  - intros d. rewrite filter_reverse.
    rewrite (Array_sort_stable _ (sort_key getTime sortOrder) _
               (compareByDate_key getTime sortOrder)); [|assumption|].
    + apply reverse_short. subst other.
      erewrite (list_filter_iff _ (fun t => sort_key getTime sortOrder t = - d)).
      * by apply one_record_per_key.
      * intros t. rewrite sort_key_toggle. lia.
    + intros x y Hx Hy. subst other. rewrite !sort_key_toggle in *. lia.
Qed.

Lemma toggle_reverses_rows_witness :
  Forall (fun t => is_Some (time_of Date_getTime t))
    (List.filter (keeps (View.filterType View.initialView))
       (transactions (getAllTransactions initialState)))
  /\ NoDup (map (time_of Date_getTime)
             (List.filter (keeps (View.filterType View.initialView))
                (transactions (getAllTransactions initialState))))
  /\ View.rows Date_getTime (View.toggleSortOrder View.initialView)
       (getAllTransactions initialState)
     = reverse (View.rows Date_getTime View.initialView
                  (getAllTransactions initialState)).
Proof.
  assert (Hv : Forall (fun t => is_Some (time_of Date_getTime t))
                 (List.filter (keeps (View.filterType View.initialView))
                    (transactions (getAllTransactions initialState))))
    by (simpl; repeat constructor; by eexists).
  assert (Hd : NoDup (map (time_of Date_getTime)
                 (List.filter (keeps (View.filterType View.initialView))
                    (transactions (getAllTransactions initialState))))).
  { simpl. repeat constructor; rewrite ?not_elem_of_cons;
      repeat split; try discriminate; apply not_elem_of_nil. }
  refine (conj Hv (conj Hd _)).
  exact (toggle_reverses_rows Date_getTime View.initialView
           (getAllTransactions initialState) Hv Hd).
Defined.

(** Records of one date keep their input order under both sort orders, so
    there the button changes nothing. *)
Example toggle_keeps_ties :
  let s := run [Create coffee half36; Create coffee "0.j"] initialState in
  View.rows Date_getTime (View.toggleSortOrder View.initialView) s
  = View.rows Date_getTime View.initialView s.
Proof. reflexivity. Qed.

(** ** The dialogs of the page and the form *)

Lemma with_id_defaultValues (t : Transaction) :
  with_id (Form.defaultValues t) (id t) = t.
Proof. by destruct t. Qed.

(** Records of a collection with distinct ids are told apart by their id. *)
Lemma same_id_same_record (txs : list Transaction) (t t' : Transaction) :
  NoDup (ids txs) -> t ∈ txs -> t' ∈ txs -> id t = id t' -> t = t'.
Proof.
  unfold ids. induction txs as [|x txs IH]; simpl; intros Hnd Ht Ht' Hid.
  - by apply elem_of_nil in Ht.
  - apply NoDup_cons in Hnd as [Hnot Hnd].
    apply elem_of_cons in Ht as [->|Ht]; apply elem_of_cons in Ht' as [->|Ht'].
    + reflexivity.
    + exfalso. apply Hnot. rewrite Hid. apply list_elem_of_fmap. eauto.
    + exfalso. apply Hnot. rewrite <- Hid. apply list_elem_of_fmap. eauto.
    + by apply IH.
Qed.

Lemma update_by_itself (t : Transaction) (txs : list Transaction) :
  (forall t', t' ∈ txs -> id t' = id t -> t' = t) ->
  map (fun tx => if String.eqb (id tx) (id t) then t else tx) txs = txs.
Proof.
  induction txs as [|x txs IH]; intros H; simpl; [reflexivity|].
  rewrite IH by (intros t' Ht'; apply H; by constructor). f_equal.
  destruct (String.eqb_spec (id x) (id t)) as [Heq|]; [|reflexivity].
  symmetry. apply H; [constructor | assumption].
Qed.

Lemma update_absent (r : Transaction) (txs : list Transaction) :
  id r ∉ ids txs ->
  map (fun tx => if String.eqb (id tx) (id r) then r else tx) txs = txs.
Proof.
  unfold ids. induction txs as [|x txs IH]; simpl; [reflexivity|].
  rewrite not_elem_of_cons. intros [Hne Hnot]. rewrite IH by assumption.
  by destruct (String.eqb_spec (id x) (id r)) as [Heq|_]; [congruence|].
Qed.

(** X10.  Confirming the deletion of the record chosen with the delete
    button leaves no record and no row with its id, closes the confirmation
    dialog and keeps the rest of the view, the chosen record included; with
    no record chosen the button changes neither the view nor the store. *)
Theorem confirm_delete (getTime : string -> TimeValue) (t : Transaction)
    (v : View.ViewState) (s : TransactionState) :
  let vs := View.confirmDelete (View.handleDeleteClick t v) s in
  (id t ∉ ids (transactions vs.2))
  /\ (id t ∉ ids (View.rows getTime vs.1 vs.2))
  /\ vs.1 = View.closeDeleteModal (View.handleDeleteClick t v)
  /\ View.isDeleteModalOpen vs.1 = false
  /\ View.transactionToDelete vs.1 = Some t
  /\ (View.transactionToDelete v = None -> View.confirmDelete v s = (v, s)).
Proof.
  simpl. split; [|split; [|split; [|split; [|split]]]]; try reflexivity.
  - rewrite ids_delete, list_elem_of_filter. by intros [? _].
  - unfold View.rows. rewrite ids_processedTransactions. intros Hin.
    apply list_elem_of_fmap in Hin as (t' & Hid & Hin).
    apply list_elem_of_In, filter_In in Hin as [Hin _].
    apply filter_In in Hin as [_ Hne].
    by rewrite <- Hid, String.eqb_refl in Hne.
  - intros Hnone. unfold View.confirmDelete. by rewrite Hnone.
Qed.

Lemma confirm_delete_witness :
  View.transactionToDelete View.initialView = None
  /\ View.confirmDelete View.initialView (getAllTransactions initialState)
     = (View.initialView, getAllTransactions initialState).
Proof.
  split; [reflexivity|].
  exact (proj2 (proj2 (proj2 (proj2 (proj2
    (confirm_delete Date_getTime undated View.initialView
       (getAllTransactions initialState)))))) eq_refl).
Defined.

(** X11.  Saving the form opened with the edit button of a record never
    adds or removes a record and never changes an id: at every position a
    record with the edited id becomes the form's data under that id and any
    other record stays; the dialog closes. *)
Theorem edit_submit (t : Transaction) (data : Draft) (rnd : string)
    (v : View.ViewState) (s : TransactionState) :
  let vs := View.submitForm data rnd (View.handleEdit t v) s in
  ids (transactions vs.2) = ids (transactions s)
  /\ (forall (i : nat) (tx : Transaction),
        transactions s !! i = Some tx ->
        transactions vs.2 !! i
        = Some (if decide (id tx = id t) then with_id data (id t) else tx))
  /\ View.isModalOpen vs.1 = false.
Proof.
  simpl. split; [|split; [|reflexivity]].
  - apply (ids_update (with_id data (id t))).
  - generalize (transactions s) as txs.
    induction txs as [|x txs IH]; intros [|i] tx Hi; simplify_eq/=.
    + by destruct (String.eqb_spec (id tx) (id t)), (decide (id tx = id t)).
    + by apply IH.
Qed.

Lemma edit_submit_witness :
  transactions (getAllTransactions initialState) !! 0%nat = Some (hd undated mockData)
  /\ transactions (View.submitForm coffee half36
                     (View.handleEdit (with_id coffee "2") View.initialView)
                     (getAllTransactions initialState)).2 !! 0%nat
     = Some (hd undated mockData).
Proof.
  split; [reflexivity|].
  exact (proj1 (proj2 (edit_submit (with_id coffee "2") coffee half36
                         View.initialView (getAllTransactions initialState)))
           0%nat (hd undated mockData) eq_refl).
Defined.

(** X12.  Saving the edit form with the values it opened with leaves the
    collection as it was, provided the record under edit is in the
    collection and the ids of the collection are distinct. *)
Theorem edit_unchanged_is_identity (t : Transaction) (rnd : string)
    (v : View.ViewState) (s : TransactionState) :
  NoDup (ids (transactions s)) -> t ∈ transactions s ->
  transactions (View.submitForm (Form.defaultValues t) rnd (View.handleEdit t v) s).2
  = transactions s.
Proof.
  intros Hnd Hin. simpl. rewrite with_id_defaultValues.
  apply update_by_itself. intros t' Ht' Hid.
  by apply (same_id_same_record (transactions s)).
Qed.

Lemma edit_unchanged_is_identity_witness :
  NoDup (ids (transactions (getAllTransactions initialState)))
  /\ (hd undated mockData ∈ transactions (getAllTransactions initialState))
  /\ transactions (View.submitForm (Form.defaultValues (hd undated mockData)) half36
                     (View.handleEdit (hd undated mockData) View.initialView)
                     (getAllTransactions initialState)).2
     = transactions (getAllTransactions initialState).
Proof.
  assert (Hnd : NoDup (ids (transactions (getAllTransactions initialState)))).
  { simpl. repeat constructor; rewrite ?not_elem_of_cons;
      repeat split; try discriminate; apply not_elem_of_nil. }
  assert (Hin : hd undated mockData ∈ transactions (getAllTransactions initialState))
    by (simpl; constructor).
  refine (conj Hnd (conj Hin _)).
  exact (edit_unchanged_is_identity _ half36 View.initialView _ Hnd Hin).
Defined.

(** X13.  Saving an edit of a record whose id is no longer in the
    collection changes no record, and the dialog closes as after any other
    save. *)
Theorem edit_of_missing_record (t : Transaction) (data : Draft) (rnd : string)
    (v : View.ViewState) (s : TransactionState) :
  id t ∉ ids (transactions s) ->
  let vs := View.submitForm data rnd (View.handleEdit t v) s in
  transactions vs.2 = transactions s /\ View.isModalOpen vs.1 = false.
Proof.
  intros Hnot. simpl. split; [|reflexivity].
  by apply (update_absent (with_id data (id t))).
Qed.

Lemma edit_of_missing_record_witness :
  (id undated ∉ ids (transactions (getAllTransactions initialState)))
  /\ transactions (View.submitForm coffee half36
                     (View.handleEdit undated View.initialView)
                     (getAllTransactions initialState)).2
     = transactions (getAllTransactions initialState).
Proof.
  assert (H : id undated ∉ ids (transactions (getAllTransactions initialState))).
  { simpl. rewrite !not_elem_of_cons. repeat split; try discriminate.
    apply not_elem_of_nil. }
  split; [exact H|].
  exact (proj1 (edit_of_missing_record undated coffee half36 View.initialView
                  (getAllTransactions initialState) H)).
Defined.

(** The create button clears whatever record was under edit: a save after
    it creates a record, whichever record the form had been opened for
    before, and closes the dialog. *)
Lemma create_after_edit (t : Transaction) (data : Draft) (rnd : string)
    (v : View.ViewState) (s : TransactionState) :
  let vs := View.submitForm data rnd (View.handleCreate (View.handleEdit t v)) s in
  vs.2 = addTransaction data rnd s
  /\ length (transactions vs.2) = S (length (transactions s))
  /\ View.editingTransaction vs.1 = None
  /\ View.isModalOpen vs.1 = false.
Proof. repeat split. Qed.

(** X14.  With the session settled, the page gives way to the full-page
    spinner exactly while the last thing that happened is a call starting
    and the collection is empty; after a call has finished the page shows,
    whatever is still pending.  While the session is unsettled the spinner
    shows in every case. *)
Theorem spinner_during_calls (events : list Overlap.Event) (s : TransactionState) :
  View.showsSpinner true (Overlap.exec events s) = true
  /\ View.showsSpinner false (Overlap.exec events s)
     = match last events with
       | None => View.showsSpinner false s
       | Some Overlap.Started =>
           bool_decide (transactions (Overlap.exec events s) = [])
       | Some (Overlap.Finished _) => false
       end.
Proof.
  split; [reflexivity|]. unfold View.showsSpinner. simpl.
  destruct events as [|e events _] using rev_ind; [reflexivity|].
  rewrite last_snoc, exec_snoc.
  destruct e as [|[|[]]]; simpl; try reflexivity.
  by destruct (transactions (Overlap.exec events s)).
Qed.

(** ** The session *)

Section SessionFacts.
Variable JSON_parse : string -> option Auth.UserValue.
Variable JSON_stringify : Auth.User -> string.
Variable setItem_accepts : Auth.Storage -> string -> string -> bool.

Local Abbreviation hydrate := (Auth.hydrate JSON_parse).
Local Abbreviation login := (Auth.login JSON_stringify setItem_accepts).
Local Abbreviation auth_step := (Auth.auth_step JSON_parse JSON_stringify setItem_accepts).
Local Abbreviation auth_run := (Auth.auth_run JSON_parse JSON_stringify setItem_accepts).
Local Abbreviation onSubmit := (Auth.LoginPage_onSubmit JSON_stringify setItem_accepts).

Lemma auth_step_lowers_flag (w : Auth.Storage * Auth.AuthState) (o : Auth.AuthOp) :
  Auth.isLoading (auth_step w o).2 = false.
Proof.
  destruct w as [storage s], o as [|email|]; simpl; [| |reflexivity].
  - unfold Auth.hydrate. destruct (storage !! Auth.auth_user) as [t|]; [|reflexivity].
    destruct (String.eqb t ""); [reflexivity|].
    by destruct (JSON_parse t).
  - unfold Auth.login.
    by destruct (setItem_accepts storage Auth.auth_user _).
Qed.

Lemma auth_step_keeps_session (w : Auth.Storage * Auth.AuthState) (o : Auth.AuthOp) :
  (Auth.isAuthenticated w.2 = true -> is_Some (w.1 !! Auth.auth_user)) ->
  Auth.isAuthenticated (auth_step w o).2 = true ->
  is_Some ((auth_step w o).1 !! Auth.auth_user).
Proof.
  destruct w as [storage s], o as [|email|]; simpl; intros Hinv.
  - unfold Auth.hydrate. destruct (storage !! Auth.auth_user) as [t|] eqn:Ht.
    + intros _. by eexists.
    + simpl. intros Hauth. by apply Hinv.
  - unfold Auth.login.
    destruct (setItem_accepts storage Auth.auth_user _); simpl.
    + intros _. rewrite lookup_insert_eq. by eexists.
    + exact Hinv.
  - discriminate.
Qed.

Lemma auth_run_snoc (ops : list Auth.AuthOp) (o : Auth.AuthOp)
    (w : Auth.Storage * Auth.AuthState) :
  auth_run (ops ++ [o]) w = auth_step (auth_run ops w) o.
Proof. unfold Auth.auth_run. by rewrite fold_left_app. Qed.

(** X15.  Through every sequence of hydrations, logins (taken or refused by
    the storage) and logouts of a provider mounted on any storage, an
    authenticated state always has a saved session in the storage; and after
    at least one of them the loading flag is down. *)
Theorem session_invariant (ops : list Auth.AuthOp) (storage : Auth.Storage) :
  let w := auth_run ops (storage, Auth.initialAuth) in
  (Auth.isAuthenticated w.2 = true -> is_Some (w.1 !! Auth.auth_user))
  /\ (ops <> [] -> Auth.isLoading w.2 = false).
Proof.
  simpl. split.
  - induction ops as [|o ops IH] using rev_ind; [discriminate|].
    rewrite auth_run_snoc. by apply auth_step_keeps_session.
  - destruct ops as [|o ops _] using rev_ind; [done|]. intros _.
    rewrite auth_run_snoc. apply auth_step_lowers_flag.
Qed.

(** X16.  A login the storage takes survives a reload: provided the host
    parses back the non-empty text it wrote for the user, a provider mounted
    afresh on the storage the login left hydrates to exactly the state the
    login left, the user authenticated. *)
Theorem login_survives_reload (email : string) (storage : Auth.Storage)
    (s : Auth.AuthState) :
  let mockUser := {| Auth.user_id := "1"; Auth.email := email;
                     Auth.name := "Usuario Demo" |} in
  setItem_accepts storage Auth.auth_user (JSON_stringify mockUser) = true ->
  JSON_stringify mockUser <> "" ->
  JSON_parse (JSON_stringify mockUser) = Some (Auth.user_object mockUser) ->
  let r := login email storage s in
  r.1.1 = Auth.returned
  /\ r.2 = {| Auth.user := Auth.user_object mockUser;
              Auth.isAuthenticated := true; Auth.isLoading := false |}
  /\ hydrate r.1.2 Auth.initialAuth = r.2.
Proof.
  intros mockUser Hok Hne Hparse. unfold Auth.login. fold mockUser.
  rewrite Hok. simpl. split; [reflexivity|]. split; [reflexivity|].
  unfold Auth.hydrate. rewrite lookup_insert_eq.
  destruct (String.eqb_spec (JSON_stringify mockUser) "") as [Heq|_]; [done|].
  by rewrite Hparse.
Qed.

(** X17.  A logout leaves the same logged-out state whatever the state
    before, removes the saved session and no other key of the storage, does
    nothing more when repeated, and a provider mounted afresh afterwards
    hydrates to that logged-out state. *)
Theorem logout_clears_session (storage : Auth.Storage) (s : Auth.AuthState) :
  let r := Auth.logout storage s in
  r.1 !! Auth.auth_user = None
  /\ (forall key : string, key <> Auth.auth_user -> r.1 !! key = storage !! key)
  /\ Auth.isAuthenticated r.2 = false
  /\ Auth.logout r.1 r.2 = r
  /\ hydrate r.1 Auth.initialAuth = r.2.
Proof.
  simpl. split; [apply lookup_delete_eq|].
  split; [intros key Hne; by apply lookup_delete_ne|].
  split; [reflexivity|].
  split; [unfold Auth.logout; simpl; by rewrite delete_delete_eq|].
  unfold Auth.hydrate. by rewrite lookup_delete_eq.
Qed.

(** X18.  A submit of the login page navigates exactly when the storage
    took the session: then the dashboard is pushed, the user is
    authenticated and the effect of the dashboard fetches without
    redirecting; otherwise nothing is pushed, the storage, the user and the
    authentication are what they were, and the loading flag is down. *)
Theorem login_page_submit (email : string) (storage : Auth.Storage)
    (s : Auth.AuthState) (history : list string) (store : TransactionState) :
  let r := onSubmit email storage s history in
  if setItem_accepts storage Auth.auth_user
       (JSON_stringify {| Auth.user_id := "1"; Auth.email := email;
                          Auth.name := "Usuario Demo" |})
  then r.2 = (history ++ ["/dashboard"])%list
       /\ Auth.isAuthenticated r.1.2 = true
       /\ View.effect (Auth.isLoading r.1.2) (Auth.isAuthenticated r.1.2) store
          = View.Fetched (getAllTransactions store)
  else r.2 = history
       /\ r.1.1 = storage
       /\ Auth.user r.1.2 = Auth.user s
       /\ Auth.isAuthenticated r.1.2 = Auth.isAuthenticated s
       /\ Auth.isLoading r.1.2 = false.
Proof.
  simpl. unfold Auth.LoginPage_onSubmit, Auth.login.
  by destruct (setItem_accepts storage Auth.auth_user _).
Qed.

(** X19.  The effect of the dashboard fetches while the session is still
    unsettled; once the provider has hydrated, it redirects to the login
    page exactly when the storage holds no usable session: no saved text, an
    empty one, or one the host cannot parse. *)
Theorem dashboard_redirect (storage : Auth.Storage) (store : TransactionState) :
  View.effect (Auth.isLoading Auth.initialAuth)
    (Auth.isAuthenticated Auth.initialAuth) store
  = View.Fetched (getAllTransactions store)
  /\ (let h := hydrate storage Auth.initialAuth in
      View.effect (Auth.isLoading h) (Auth.isAuthenticated h) store
      = View.Redirected "/login"
      <-> match storage !! Auth.auth_user with
          | Some text => text = "" \/ JSON_parse text = None
          | None => True
          end).
Proof.
  split; [reflexivity|]. simpl. unfold Auth.hydrate.
  destruct (storage !! Auth.auth_user) as [text|]; [|done].
  destruct (String.eqb_spec text "") as [->|Hne]; [by split; [left|]|].
  destruct (JSON_parse text) as [v|]; simpl.
  - split; [discriminate|]. by intros [?|?].
  - split; [by right | done].
Qed.

End SessionFacts.

(** *** The instance of the host functions *)

Lemma append_cons (x : ascii) (a b : string) :
  String x a +:+ b = String x (a +:+ b).
Proof. reflexivity. Qed.

Lemma append_empty (b : string) : "" +:+ b = b.
Proof. reflexivity. Qed.

Lemma append_assoc (a b c : string) : (a +:+ b) +:+ c = a +:+ (b +:+ c).
Proof.
  induction a as [|x a IH]; [reflexivity|].
  rewrite !append_cons. by rewrite IH.
Qed.

Lemma read_quote_char (c : ascii) (t : string) :
  Auth.read_chars (Auth.quote_char c +:+ t)
  = match Auth.read_chars t with
    | Some (x, rest) => Some (String c x, rest)
    | None => None
    end.
Proof. destruct c as [[] [] [] [] [] [] [] []]; reflexivity. Qed.

Lemma read_quote_chars (s rest : string) :
  Auth.read_chars (Auth.quote_chars s +:+ String Auth.dquote rest) = Some (s, rest).
Proof.
  induction s as [|c s IH]; [reflexivity|].
  change (Auth.quote_chars (String c s))
    with (Auth.quote_char c +:+ Auth.quote_chars s).
  by rewrite append_assoc, read_quote_char, IH.
Qed.

Ltac flatten_append :=
  repeat (rewrite append_assoc || rewrite append_cons || rewrite append_empty).

(** The parser of the instance reads back every user the writer of the
    instance writes, whatever characters its fields hold. *)
Lemma JSON_parse_stringify_user (u : Auth.User) :
  Auth.JSON_parse_user (Auth.JSON_stringify_user u) = Some (Auth.user_object u).
Proof.
  destruct u as [i e n].
  unfold Auth.JSON_parse_user, Auth.JSON_stringify_user, Auth.read_member,
    Auth.JSON_quote.
  simpl Auth.quote_chars. flatten_append. simpl.
  rewrite read_quote_chars. simpl. rewrite read_quote_chars. simpl.
  rewrite read_quote_chars. simpl. reflexivity.
Qed.

(** *** The session on the instance *)

(** A provider mounted on an empty storage, hydrated, then logged in. *)
Lemma session_invariant_witness :
  [Auth.Hydrate; Auth.Login "demo@example.com"] <> []
  /\ Auth.isAuthenticated
       (Auth.auth_run Auth.JSON_parse_user Auth.JSON_stringify_user Auth.roomy
          [Auth.Hydrate; Auth.Login "demo@example.com"] (∅, Auth.initialAuth)).2 = true
  /\ is_Some
       ((Auth.auth_run Auth.JSON_parse_user Auth.JSON_stringify_user Auth.roomy
           [Auth.Hydrate; Auth.Login "demo@example.com"] (∅, Auth.initialAuth)).1
          !! Auth.auth_user)
  /\ Auth.isLoading
       (Auth.auth_run Auth.JSON_parse_user Auth.JSON_stringify_user Auth.roomy
          [Auth.Hydrate; Auth.Login "demo@example.com"] (∅, Auth.initialAuth)).2 = false.
Proof.
  pose proof (session_invariant Auth.JSON_parse_user Auth.JSON_stringify_user
                Auth.roomy [Auth.Hydrate; Auth.Login "demo@example.com"] ∅) as H.
  simpl in H. destruct H as [Hsaved Hflag].
  assert (Hne : [Auth.Hydrate; Auth.Login "demo@example.com"] <> []) by discriminate.
  exact (conj Hne (conj eq_refl (conj (Hsaved eq_refl) (Hflag Hne)))).
Defined.

(** A login on an empty storage that takes every write, read back by the
    parser of the instance. *)
Lemma login_survives_reload_witness :
  Auth.roomy ∅ Auth.auth_user
    (Auth.JSON_stringify_user
       {| Auth.user_id := "1"; Auth.email := "demo@example.com";
          Auth.name := "Usuario Demo" |}) = true
  /\ Auth.JSON_stringify_user
       {| Auth.user_id := "1"; Auth.email := "demo@example.com";
          Auth.name := "Usuario Demo" |} <> ""
  /\ Auth.hydrate Auth.JSON_parse_user
       (Auth.login Auth.JSON_stringify_user Auth.roomy "demo@example.com" ∅
          Auth.initialAuth).1.2 Auth.initialAuth
     = (Auth.login Auth.JSON_stringify_user Auth.roomy "demo@example.com" ∅
          Auth.initialAuth).2.
Proof.
  assert (Hne : Auth.JSON_stringify_user
                  {| Auth.user_id := "1"; Auth.email := "demo@example.com";
                     Auth.name := "Usuario Demo" |} <> "") by discriminate.
  refine (conj eq_refl (conj Hne _)).
  exact (proj2 (proj2
    (login_survives_reload Auth.JSON_parse_user Auth.JSON_stringify_user Auth.roomy
       "demo@example.com" ∅ Auth.initialAuth eq_refl Hne
       (JSON_parse_stringify_user _)))).
Defined.

(** A visitor whose storage is empty is sent to the login page once the
    provider has hydrated. *)
Lemma dashboard_redirect_witness :
  View.effect
    (Auth.isLoading (Auth.hydrate Auth.JSON_parse_user ∅ Auth.initialAuth))
    (Auth.isAuthenticated (Auth.hydrate Auth.JSON_parse_user ∅ Auth.initialAuth))
    initialState
  = View.Redirected "/login".
Proof.
  exact (proj2 (proj2 (dashboard_redirect Auth.JSON_parse_user ∅ initialState)) I).
Defined.

(** A storage whose quota is used up refuses the session: the submit of
    the login page pushes nothing. *)
Example login_refused :
  (Auth.LoginPage_onSubmit Auth.JSON_stringify_user Auth.full "demo@example.com"
     ∅ Auth.initialAuth []).2 = [].
Proof. reflexivity. Qed.

(** A saved text that is the JSON [null] is taken for a session: the
    provider hydrates to an authenticated state without a user. *)
Example hydrate_null :
  Auth.hydrate Auth.JSON_parse_user {[ Auth.auth_user := "null" ]} Auth.initialAuth
  = {| Auth.user := Auth.user_null; Auth.isAuthenticated := true;
       Auth.isLoading := false |}.
Proof. reflexivity. Qed.
